(** * TaskManagementApp: the task controller, embedded and verified

    A shallow embedding of [backend/controllers/taskController.js] together
    with the two Mongoose schemas it works on ([models/Task.js],
    [models/Agent.js]).  Request handlers become functions from the database
    state and the request to the new database state and the response that
    [res.status(..).json(..)] sends.

    Conventions of the embedding:
    - an [ObjectId] is a natural number (its 96-bit value); requests carry
      well-formed ids, so Mongoose's [CastError] on a malformed id is not
      part of the model;
    - a JavaScript object used as a record of named columns is a [gmap]
      from column name to value, [undefined] is [None];
    - a string is the UTF-8 encoding of the JavaScript string;
    - the two decoders [xlsx.read]/[sheet_to_json] and [csv-parser] are
      external libraries: an uploaded buffer is represented by what each of
      them yields on it;
    - the [createdAt]/[updatedAt] stamps of [timestamps: true] are left out.

    Beside the task controller the file embeds what stands around it: the
    agent controller, the [protect], [requireRole] and [fileFilter]
    middleware with the task router, and from the front end the request
    interceptor, the paging of the task page, the counters of the agent's
    dashboard, the notification list and the session reducer. *)

From stdpp Require Import gmap strings list fin_maps pretty.
From Stdlib Require Import ZArith Lia.

Open Scope string_scope.
Open Scope nat_scope.

Local Set Warnings "-register-all".

Abbreviation ObjectId := nat (only parsing).

(** ** JavaScript primitives used by the controller *)

Module JS.

(** A string is the UTF-8 encoding of the JavaScript string.  The text
    [String.prototype.trim] removes is the WhiteSpace and LineTerminator
    code points.  Those of one byte: TAB, LF, VT, FF, CR and SPACE. *)
Definition is_whitespace (c : Ascii.ascii) : bool :=
  let n := Ascii.nat_of_ascii c in
  ((9 <=? n)%nat && (n <=? 13)%nat) || (n =? 32)%nat.

(** Of two bytes: U+00A0, encoded C2 A0. *)
Definition is_whitespace2 (c1 c2 : Ascii.ascii) : bool :=
  (Ascii.nat_of_ascii c1 =? 194)%nat && (Ascii.nat_of_ascii c2 =? 160)%nat.

(** Of three bytes: U+1680 (E1 9A 80), U+2000 to U+200A (E2 80 80..8A),
    U+2028, U+2029 and U+202F (E2 80 A8, A9, AF), U+205F (E2 81 9F),
    U+3000 (E3 80 80) and U+FEFF (EF BB BF). *)
Definition is_whitespace3 (c1 c2 c3 : Ascii.ascii) : bool :=
  let n1 := Ascii.nat_of_ascii c1 in
  let n2 := Ascii.nat_of_ascii c2 in
  let n3 := Ascii.nat_of_ascii c3 in
  ((n1 =? 225) && (n2 =? 154) && (n3 =? 128))%nat
  || ((n1 =? 226) && (n2 =? 128)
      && (((128 <=? n3) && (n3 <=? 138)) || (n3 =? 168) || (n3 =? 169) || (n3 =? 175)))%nat
  || ((n1 =? 226) && (n2 =? 129) && (n3 =? 159))%nat
  || ((n1 =? 227) && (n2 =? 128) && (n3 =? 128))%nat
  || ((n1 =? 239) && (n2 =? 187) && (n3 =? 191))%nat.

(** Dropping from the front every sequence of one, two or three bytes that
    the three tests accept. *)
Fixpoint strip (w1 : Ascii.ascii → bool) (w2 : Ascii.ascii → Ascii.ascii → bool)
    (w3 : Ascii.ascii → Ascii.ascii → Ascii.ascii → bool) (s : string) : string :=
  match s with
  | EmptyString => EmptyString
  | String c1 s1 =>
      if w1 c1 then strip w1 w2 w3 s1
      else
        match s1 with
        | EmptyString => s
        | String c2 s2 =>
            if w2 c1 c2 then strip w1 w2 w3 s2
            else
              match s2 with
              | EmptyString => s
              | String c3 s3 => if w3 c1 c2 c3 then strip w1 w2 w3 s3 else s
              end
        end
  end.

Definition trimStart (s : string) : string :=
  strip is_whitespace is_whitespace2 is_whitespace3 s.

(** From the end, the bytes of a sequence are met last first. *)
Definition trimEnd (s : string) : string :=
  String.rev
    (strip is_whitespace (λ c2 c1, is_whitespace2 c1 c2)
       (λ c3 c2 c1, is_whitespace3 c1 c2 c3) (String.rev s)).

Definition trim (s : string) : string := trimEnd (trimStart s).

(** The largest integer a number holds exactly, 2^53 - 1. *)
Definition MAX_SAFE_INTEGER : Z := 9007199254740991.

Definition saturate (z : Z) : Z :=
  Z.max (- MAX_SAFE_INTEGER) (Z.min z MAX_SAFE_INTEGER).

(** A cell value as [sheet_to_json] produces it.  A number is a double:
    [CNum z] is the integer [saturate z], which [String] prints in decimal
    digits; any other number but NaN is a [CFloat] and carries the text
    [String] prints for it (["0.5"], ["1e+21"], ["Infinity"]). *)
Inductive Cell : Type :=
| CStr (s : string)
| CNum (z : Z)
| CFloat (text : string)
| CNaN
| CBool (b : bool).

(** A possibly [undefined] value. *)
Definition Value : Type := option Cell.

(** [ToBoolean]. *)
Definition truthy (v : Value) : bool :=
  match v with
  | None => false
  | Some (CStr s) => negb (String.eqb s "")
  | Some (CNum z) => negb (z =? 0)%Z
  | Some (CFloat _) => true
  | Some CNaN => false
  | Some (CBool b) => b
  end.

(** [String(v)]. *)
Definition String_ (v : Value) : string :=
  match v with
  | None => "undefined"
  | Some (CStr s) => s
  | Some (CNum z) => pretty (saturate z)
  | Some (CFloat text) => text
  | Some CNaN => "NaN"
  | Some (CBool true) => "true"
  | Some (CBool false) => "false"
  end.

(** Truthiness of a possibly [undefined] string. *)
Definition truthy_str (v : option string) : bool :=
  match v with
  | None => false
  | Some s => negb (String.eqb s "")
  end.

End JS.

(** ** Documents *)

(** [models/Agent.js]. *)
Module Agent.
Record t : Type := mk {
  _id : ObjectId;
  name : string;
  email : string;
  password : string;
  phone : string;
  role : string
}.
End Agent.

(** An element of [results]: what the row filter pushes. *)
Module Candidate.
Record t : Type := mk {
  firstName : string;
  phone : string;
  notes : string
}.
End Candidate.

(** An element of [draft]: the candidate's fields spread, plus the agent. *)
Module Draft.
Record Summary : Type := mkSummary {
  id : ObjectId;
  name : string;
  email : string
}.
Record t : Type := mk {
  task : Candidate.t;
  agentId : ObjectId;
  assignedTo : ObjectId;
  draftAssignedTo : Summary
}.
End Draft.

(** [models/Task.js]; the [_id] of a stored task is its key in the
    collection. *)
Module Task.
Record t : Type := mk {
  firstName : string;
  phone : string;
  notes : string;
  agentId : option ObjectId;
  assignedTo : option ObjectId;
  status : string;
  isFinalized : bool
}.

Definition set_status (s : string) (x : t) : t :=
  mk (firstName x) (phone x) (notes x) (agentId x) (assignedTo x) s (isFinalized x).

Definition set_assignedTo (a : option ObjectId) (x : t) : t :=
  mk (firstName x) (phone x) (notes x) (agentId x) a (status x) (isFinalized x).

Definition set_isFinalized (b : bool) (x : t) : t :=
  mk (firstName x) (phone x) (notes x) (agentId x) (assignedTo x) (status x) b.

(** The [enum] of the [status] path. *)
Definition status_enum : list string :=
  ["pending"; "in-progress"; "completed"; "failed"].

(** Mongoose's validators for the schema: [required: true] on a String
    path rejects [undefined], [null] and the empty string; [enum] rejects
    a value outside the list. *)
Definition validate (x : t) : bool :=
  negb (String.eqb (firstName x) "") && negb (String.eqb (phone x) "")
  && bool_decide (status x ∈ status_enum).
End Task.

(** ** Responses *)

Inductive Json : Type :=
| JNull
| JBool (b : bool)
| JNum (n : Z)
| JStr (s : string)
| JId (i : ObjectId)
| JArr (l : list Json)
| JObj (fields : list (string * Json)).

Fixpoint assoc (k : string) (fields : list (string * Json)) : option Json :=
  match fields with
  | [] => None
  | (k', v) :: rest => if String.eqb k' k then Some v else assoc k rest
  end.

(** Property access on a response body. *)
Definition field (k : string) (j : Json) : option Json :=
  match j with
  | JObj fields => assoc k fields
  | _ => None
  end.

Record Response : Type := mkResponse {
  statusCode : nat;
  json : Json
}.

(** The database: the Agent collection in its natural order and the Task
    collection by [_id]. *)
Record Db : Type := mkDb {
  Agents : list Agent.t;
  Tasks : gmap ObjectId Task.t
}.

(** ** Upload: row filter and round-robin draft ([draftUpload]) *)

Abbreviation XRow := (gmap string JS.Cell).
Abbreviation CRow := (gmap string string).

(** The callback of [jsonData.forEach]: [Some] is a push onto [results]. *)
Definition xlsx_row (row : XRow) : option Candidate.t :=
  let FirstName := row !! "FirstName" in
  let Phone := row !! "Phone" in
  let Notes := row !! "Notes" in
  if JS.truthy FirstName && JS.truthy Phone then
    Some (Candidate.mk
            (JS.trim (JS.String_ FirstName))
            (JS.trim (JS.String_ Phone))
            (if JS.truthy Notes then JS.trim (JS.String_ Notes) else ""))
  else None.

(** The ['data'] callback of the CSV stream; every value is a string. *)
Definition csv_row (data : CRow) : option Candidate.t :=
  let FirstName := data !! "FirstName" in
  let Phone := data !! "Phone" in
  let Notes := data !! "Notes" in
  match FirstName, Phone with
  | Some f, Some p =>
      if JS.truthy_str FirstName && JS.truthy_str Phone then
        Some (Candidate.mk (JS.trim f) (JS.trim p)
                (let t := JS.trim <$> Notes in
                 if JS.truthy_str t then default "" t else ""))
      else None
  | _, _ => None
  end.

(** The callback of [results.map]: [agents[index % agents.length]] is
    [undefined] out of range, and reading [agent._id] then throws. *)
Definition assign (agents : list Agent.t) (index : nat) (task : Candidate.t)
  : option Draft.t :=
  agent ← agents !! (index mod length agents);
  Some (Draft.mk task (Agent._id agent) (Agent._id agent)
          (Draft.mkSummary (Agent._id agent) (Agent.name agent) (Agent.email agent))).

Definition make_draft (agents : list Agent.t) (results : list Candidate.t)
  : option (list Draft.t) :=
  mapM id (imap (assign agents) results).

Definition Draft_json (d : Draft.t) : Json :=
  JObj [("firstName", JStr (Candidate.firstName (Draft.task d)));
        ("phone", JStr (Candidate.phone (Draft.task d)));
        ("notes", JStr (Candidate.notes (Draft.task d)));
        ("agentId", JId (Draft.agentId d));
        ("assignedTo", JId (Draft.assignedTo d));
        ("draftAssignedTo",
          JObj [("id", JId (Draft.id (Draft.draftAssignedTo d)));
                ("name", JStr (Draft.name (Draft.draftAssignedTo d)));
                ("email", JStr (Draft.email (Draft.draftAssignedTo d)))])].

(** What the two decoders yield on the uploaded bytes: [xlsx.read] may
    throw (left, with the error's message), [csv-parser] emits rows. *)
Record Buffer : Type := mkBuffer {
  sheet_to_json : string + list XRow;
  csv_rows : list CRow
}.

Record File : Type := mkFile {
  buffer : Buffer;
  mimetype : string
}.

(** A handler either sends a response, or an exception escapes it (one
    thrown inside a stream callback is not caught by the handler's [try]). *)
Inductive Outcome : Type :=
| Responded (r : Response)
| Uncaught (msg : string).

Definition message (code : nat) (msg : string) : Response :=
  mkResponse code (JObj [("message", JStr msg)]).

Definition server_error (msg err : string) : Response :=
  mkResponse 500 (JObj [("message", JStr msg); ("error", JStr err)]).

Definition undefined_id : string :=
  "Cannot read properties of undefined (reading '_id')".

Definition draft_response (draft : list Draft.t) : Response :=
  mkResponse 200
    (JObj [("total", JNum (Z.of_nat (length draft)));
           ("draft", JArr (Draft_json <$> draft))]).

Definition xlsx_type : string :=
  "application/vnd.openxmlformats-officedocument.spreadsheetml.sheet".
Definition xls_type : string := "application/vnd.ms-excel".
Definition csv_type : string := "text/csv".

Definition draftUpload (db : Db) (file : option File) : Outcome :=
  match file with
  | None => Responded (message 400 "No file uploaded")
  | Some file =>
      let agents := Agents db in
      if (length agents =? 0)%nat then
        Responded (message 400 "No agents available")
      else
        let fileType := mimetype file in
        if String.eqb fileType xlsx_type || String.eqb fileType xls_type then
          match sheet_to_json (buffer file) with
          | inl err => Responded (server_error "Server error" err)
          | inr jsonData =>
              let results := omap xlsx_row jsonData in
              match make_draft agents results with
              | None => Responded (server_error "Server error" undefined_id)
              | Some draft => Responded (draft_response draft)
              end
          end
        else if String.eqb fileType csv_type then
          let results := omap csv_row (csv_rows (buffer file)) in
          match make_draft agents results with
          | None => Uncaught undefined_id
          | Some draft => Responded (draft_response draft)
          end
        else Responded (message 400 "Unsupported file type")
  end.

(** ** Commit ([confirmDraft]) *)

(** An element of [req.body.tasks], as far as the handler reads it. *)
Module Entry.
Record Ref : Type := mkRef {
  id : option ObjectId
}.
Record t : Type := mk {
  firstName : option string;
  phone : option string;
  notes : option string;
  draftAssignedTo : option Ref;
  agentId : option ObjectId;
  assignedTo : option ObjectId
}.
End Entry.

(** An element of [processedTasks]. *)
Module NewTask.
Record t : Type := mk {
  firstName : option string;
  phone : option string;
  notes : string;
  agentId : option ObjectId;
  assignedTo : option ObjectId;
  status : string;
  isFinalized : bool
}.
End NewTask.

(** [a || b] on references: an id is always truthy. *)
Definition or_id (a b : option ObjectId) : option ObjectId :=
  match a with
  | Some _ => a
  | None => b
  end.

(** The callback of [tasks.map]. *)
Definition process (task : Entry.t) : NewTask.t :=
  NewTask.mk
    (Entry.firstName task)
    (Entry.phone task)
    (if JS.truthy_str (Entry.notes task) then default "" (Entry.notes task) else "")
    (or_id (Entry.draftAssignedTo task ≫= Entry.id) (Entry.agentId task))
    (or_id (Entry.draftAssignedTo task ≫= Entry.id) (Entry.assignedTo task))
    "pending"
    false.

(** Casting and validating one new document against the Task schema. *)
Definition Task_of (d : NewTask.t) : option Task.t :=
  match NewTask.firstName d, NewTask.phone d with
  | Some f, Some p =>
      let x := Task.mk f p (NewTask.notes d) (NewTask.agentId d)
                 (NewTask.assignedTo d) (NewTask.status d) (NewTask.isFinalized d) in
      if Task.validate x then Some x else None
  | _, _ => None
  end.

(** Writing validated documents, each under a fresh [_id]. *)
Fixpoint store_all (docs : list Task.t) (coll : gmap ObjectId Task.t)
  : gmap ObjectId Task.t * list (ObjectId * Task.t) :=
  match docs with
  | [] => (coll, [])
  | x :: rest =>
      let i := fresh (dom coll) in
      let r := store_all rest (<[i := x]> coll) in
      (r.1, (i, x) :: r.2)
  end.

(** [Task.insertMany]: every document is validated before anything is
    sent to the store; one invalid document rejects the whole call. *)
Definition insertMany (docs : list NewTask.t) (coll : gmap ObjectId Task.t)
  : option (gmap ObjectId Task.t * list (ObjectId * Task.t)) :=
  valid ← mapM Task_of docs;
  Some (store_all valid coll).

(** The schema's [required] validators on an inbound entry: both names
    present and non-empty. *)
Definition entry_ok (e : Entry.t) : bool :=
  JS.truthy_str (Entry.firstName e) && JS.truthy_str (Entry.phone e).

Definition validation_failed : string := "Task validation failed".

(** [tasks] is [None] when [req.body.tasks] is not an array. *)
Definition confirmDraft (db : Db) (tasks : option (list Entry.t)) : Db * Response :=
  match tasks with
  | None => (db, message 400 "No tasks provided.")
  | Some tasks =>
      if (length tasks =? 0)%nat then (db, message 400 "No tasks provided.")
      else
        let processedTasks := process <$> tasks in
        match insertMany processedTasks (Tasks db) with
        | None => (db, server_error "Server error" validation_failed)
        | Some (coll, inserted) =>
            (mkDb (Agents db) coll,
             mkResponse 201
               (JObj [("message", JStr "Tasks saved successfully");
                      ("count", JNum (Z.of_nat (length inserted)))]))
        end
  end.

(** ** Lifecycle ([updateTaskStatus], [reassignTask]) *)

(** The decoded token, [req.user]. *)
Module User.
Record t : Type := mk {
  id : ObjectId;
  role : string
}.
End User.

Definition opt_field (k : string) (r : option ObjectId) : list (string * Json) :=
  match r with
  | Some i => [(k, JId i)]
  | None => []
  end.

Definition Task_json (i : ObjectId) (x : Task.t) : Json :=
  JObj ([("_id", JId i);
         ("firstName", JStr (Task.firstName x));
         ("phone", JStr (Task.phone x));
         ("notes", JStr (Task.notes x))]
        ++ opt_field "agentId" (Task.agentId x)
        ++ opt_field "assignedTo" (Task.assignedTo x)
        ++ [("status", JStr (Task.status x));
            ("isFinalized", JBool (Task.isFinalized x))]).

(** [task.save()]: the document is validated, then written under its
    [_id]. *)
Definition save (i : ObjectId) (x : Task.t) (coll : gmap ObjectId Task.t)
  : option (gmap ObjectId Task.t) :=
  if Task.validate x then Some (<[i := x]> coll) else None.

Definition allowedStatuses : list string :=
  ["pending"; "in-progress"; "completed"; "failed"].

(** [String(ref) === String(id)]: an unset reference prints as
    ["undefined"], which is the text of no id. *)
Definition same_id (ref : option ObjectId) (id : ObjectId) : bool :=
  match ref with
  | Some r => (r =? id)%nat
  | None => false
  end.

Definition isAssigned (task : Task.t) (user : User.t) : bool :=
  same_id (Task.assignedTo task) (User.id user)
  || same_id (Task.agentId task) (User.id user).

(** [status] is [None] when the body carries no [status]. *)
Definition updateTaskStatus (db : Db) (user : User.t) (taskId : ObjectId)
    (status : option string) : Db * Response :=
  match status with
  | None => (db, message 400 "Invalid status value")
  | Some status =>
      if negb (bool_decide (status ∈ allowedStatuses)) then
        (db, message 400 "Invalid status value")
      else
        match Tasks db !! taskId with
        | None => (db, message 404 "Task not found")
        | Some task =>
            if String.eqb (User.role user) "agent" && negb (isAssigned task user) then
              (db, message 403 "You are not assigned to this task")
            else
              let task := Task.set_status status task in
              match save taskId task (Tasks db) with
              | None => (db, server_error "Server error" validation_failed)
              | Some coll =>
                  (mkDb (Agents db) coll,
                   mkResponse 200
                     (JObj [("message", JStr "Task status updated successfully");
                            ("task", Task_json taskId task)]))
              end
        end
  end.

(** [newAgentId] is [None] when the body carries none. *)
Definition reassignTask (db : Db) (id : ObjectId) (newAgentId : option ObjectId)
  : Db * Response :=
  match Tasks db !! id with
  | None => (db, message 404 "Task not found")
  | Some task =>
      let task := Task.set_assignedTo newAgentId task in
      match save id task (Tasks db) with
      | None => (db, server_error "Server error" validation_failed)
      | Some coll =>
          (mkDb (Agents db) coll,
           mkResponse 200
             (JObj [("message", JStr "Task reassigned successfully");
                    ("task", Task_json id task)]))
      end
  end.

Definition status_updated (taskId : ObjectId) (task : Task.t) : Response :=
  mkResponse 200
    (JObj [("message", JStr "Task status updated successfully");
           ("task", Task_json taskId task)]).

Definition reassigned (id : ObjectId) (task : Task.t) : Response :=
  mkResponse 200
    (JObj [("message", JStr "Task reassigned successfully");
           ("task", Task_json id task)]).

(** Two tasks that agree on every field but [assignedTo]. *)
Definition same_but_assignedTo (t t' : Task.t) : Prop :=
  Task.firstName t' = Task.firstName t ∧ Task.phone t' = Task.phone t
  ∧ Task.notes t' = Task.notes t ∧ Task.agentId t' = Task.agentId t
  ∧ Task.status t' = Task.status t ∧ Task.isFinalized t' = Task.isFinalized t.

(** Two tasks that agree on every field but [status]. *)
Definition same_but_status (t t' : Task.t) : Prop :=
  Task.firstName t' = Task.firstName t ∧ Task.phone t' = Task.phone t
  ∧ Task.notes t' = Task.notes t ∧ Task.agentId t' = Task.agentId t
  ∧ Task.assignedTo t' = Task.assignedTo t
  ∧ Task.isFinalized t' = Task.isFinalized t.

(** Two tasks that agree on every field but [isFinalized]. *)
Definition same_but_isFinalized (t t' : Task.t) : Prop :=
  Task.firstName t' = Task.firstName t ∧ Task.phone t' = Task.phone t
  ∧ Task.notes t' = Task.notes t ∧ Task.agentId t' = Task.agentId t
  ∧ Task.assignedTo t' = Task.assignedTo t ∧ Task.status t' = Task.status t.

(** ** Finalization ([finalizeAssignments]) *)

(** [Task.updateMany(filter, update)]: the new collection and the number
    of documents modified. *)
Definition updateMany (flt : Task.t → bool) (upd : Task.t → Task.t)
    (coll : gmap ObjectId Task.t) : gmap ObjectId Task.t * nat :=
  ((λ x, if flt x then upd x else x) <$> coll,
   size (filter (λ kv, flt kv.2 = true) coll)).

Definition finalizeAssignments (db : Db) : Db * Response :=
  let r := updateMany (λ x, negb (Task.isFinalized x)) (Task.set_isFinalized true)
             (Tasks db) in
  (mkDb (Agents db) r.1, message 200 "All tasks finalized successfully").

(** ** Vocabulary of the properties *)

(** The draft entry that pairs a record with an agent. *)
Definition paired (task : Candidate.t) (agent : Agent.t) : Draft.t :=
  Draft.mk task (Agent._id agent) (Agent._id agent)
    (Draft.mkSummary (Agent._id agent) (Agent.name agent) (Agent.email agent)).

(** How many entries of a draft went to the agent with a given [_id]. *)
Definition received (id : ObjectId) (draft : list Draft.t) : nat :=
  length (filter (λ d, Draft.assignedTo d = id) draft).

Definition is_excel (file : File) : bool :=
  String.eqb (mimetype file) xlsx_type || String.eqb (mimetype file) xls_type.

(** The agent a draft entry of a response is assigned to. *)
Definition assigned_to (j : Json) : option ObjectId :=
  match field "assignedTo" j with
  | Some (JId i) => Some i
  | _ => None
  end.

(** How many entries of the draft array of a response went to the agent
    with a given [_id]. *)
Definition drafted_for (id : ObjectId) (l : list Json) : nat :=
  length (filter (λ j, assigned_to j = Some id) l).

(** An upload of a supported type that decodes, and the ordered list of
    records its rows leave in [results]. *)
Inductive yields (file : File) : list Candidate.t → Prop :=
| yields_excel (jsonData : list XRow) :
    is_excel file = true →
    sheet_to_json (buffer file) = inr jsonData →
    yields file (omap xlsx_row jsonData)
| yields_csv :
    is_excel file = false →
    String.eqb (mimetype file) csv_type = true →
    yields file (omap csv_row (csv_rows (buffer file))).

(** ** Fixtures *)

Definition W1 : Agent.t := Agent.mk 1 "W1" "w1@example.com" "hash1" "555-0001" "agent".
Definition W2 : Agent.t := Agent.mk 2 "W2" "w2@example.com" "hash2" "555-0002" "agent".

(** A draft entry whose proposed worker, 9, is no agent's id. *)
Definition stale_entry : Entry.t :=
  Entry.mk (Some "Ann") (Some "555-1111") (Some "")
    (Some (Entry.mkRef (Some 9))) (Some 9) (Some 9).

(** A task drafted for agent 2 and since reassigned to agent 1. *)
Definition reassigned_task : Task.t :=
  Task.mk "Ann" "555-1111" "" (Some 2) (Some 1) "pending" false.

Definition row (cols : list (string * string)) : CRow := list_to_map cols.

(** U+00A0, a non-breaking space, in its encoding. *)
Definition nbsp : string :=
  String (Ascii.ascii_of_nat 194) (String (Ascii.ascii_of_nat 160) "").

Definition csv_file (rows : list CRow) : File :=
  mkFile (mkBuffer (inl "Unsupported file") rows) csv_type.

(** A draft made for agent 2, stored as it was drafted. *)
Definition drafted_task : Task.t :=
  Task.mk "Ann" "555-1111" "" (Some 2) (Some 2) "pending" false.

(** Five valid rows. *)
Definition five_rows : File :=
  csv_file [row [("FirstName", "Ann"); ("Phone", "555-1111"); ("Notes", "")];
            row [("FirstName", "Bob"); ("Phone", "555-2222"); ("Notes", "urgent")];
            row [("FirstName", "Cid"); ("Phone", "555-3333")];
            row [("FirstName", " Dee "); ("Phone", "555-4444"); ("Region", "N")];
            row [("FirstName", "Eve"); ("Phone", "555-5555")]].

(** ** Reads ([getAllTasks], [getAgentTasks], [getTasks]) *)

(** [Task.find(query)]: the matching documents with their [_id].  The order
    in which the store hands them out is not modelled; the properties below
    speak of membership only. *)
Definition find (query : Task.t → bool) (coll : gmap ObjectId Task.t)
  : list (ObjectId * Task.t) :=
  filter (λ kv, query kv.2 = true) (map_to_list coll).

(** [.populate(path, 'name email')] on one reference: the agent's [_id],
    [name] and [email] in place of the id, [null] when no agent has it, and
    nothing for an unset reference. *)
Definition populated (agents : list Agent.t) (k : string) (ref : option ObjectId)
  : list (string * Json) :=
  match ref with
  | None => []
  | Some i =>
      match list_find (λ a, Agent._id a = i) agents with
      | Some (_, a) =>
          [(k, JObj [("_id", JId i);
                     ("name", JStr (Agent.name a));
                     ("email", JStr (Agent.email a))])]
      | None => [(k, JNull)]
      end
  end.

Definition ref_field (agents : list Agent.t) (path k : string) (ref : option ObjectId)
  : list (string * Json) :=
  if String.eqb path k then populated agents k ref else opt_field k ref.

(** A task as [res.json] prints it after [.populate(path, ..)]. *)
Definition Task_json_populated (agents : list Agent.t) (path : string)
    (kv : ObjectId * Task.t) : Json :=
  JObj ([("_id", JId kv.1);
         ("firstName", JStr (Task.firstName kv.2));
         ("phone", JStr (Task.phone kv.2));
         ("notes", JStr (Task.notes kv.2))]
        ++ ref_field agents path "agentId" (Task.agentId kv.2)
        ++ ref_field agents path "assignedTo" (Task.assignedTo kv.2)
        ++ [("status", JStr (Task.status kv.2));
            ("isFinalized", JBool (Task.isFinalized kv.2))]).

(** [agentId] is [None] when [req.query.agentId] is absent or empty. *)
Definition getAllTasks (db : Db) (agentId : option ObjectId) : Response :=
  let query :=
    match agentId with
    | Some a => λ t, same_id (Task.agentId t) a
    | None => λ _, true
    end in
  let tasks := find query (Tasks db) in
  mkResponse 200 (JArr (Task_json_populated (Agents db) "agentId" <$> tasks)).

Definition getAgentTasks (db : Db) (user : User.t) : Response :=
  let tasks :=
    find (λ t, same_id (Task.assignedTo t) (User.id user)
               || same_id (Task.agentId t) (User.id user)) (Tasks db) in
  mkResponse 200 (JArr (Task_json_populated (Agents db) "assignedTo" <$> tasks)).

Definition getTasks (db : Db) (user : User.t) : Response :=
  let tasks :=
    if String.eqb (User.role user) "admin" then
      Task_json_populated (Agents db) "assignedTo" <$> find (λ _, true) (Tasks db)
    else
      (λ kv, Task_json kv.1 kv.2)
        <$> find (λ t, same_id (Task.assignedTo t) (User.id user) && Task.isFinalized t)
              (Tasks db) in
  mkResponse 200 (JObj [("tasks", JArr tasks)]).

(** ** Middleware ([protect], [requireRole], [fileFilter]) and the router *)

(** [s.split(sep)] for a one-character separator. *)
Fixpoint split (sep : Ascii.ascii) (s : string) : list string :=
  match s with
  | EmptyString => [EmptyString]
  | String c s' =>
      if Ascii.eqb c sep then EmptyString :: split sep s'
      else match split sep s' with
           | h :: t => String c h :: t
           | [] => [String c EmptyString]
           end
  end.

Definition space : Ascii.ascii := Ascii.ascii_of_nat 32.

(** [protect]; [verify] stands for [jwt.verify(_, JWT_SECRET)], [None] when
    it throws.  Left is the response sent, right the [req.user] handed to
    [next]. *)
Definition protect (verify : string → option User.t) (authorization : option string)
  : Response + User.t :=
  match authorization with
  | None => inl (message 401 "Unauthorized")
  | Some authHeader =>
      if negb (String.prefix "Bearer " authHeader) then
        inl (message 401 "Unauthorized")
      else
        match split space authHeader !! 1 ≫= verify with
        | Some decoded => inr decoded
        | None => inl (message 401 "Invalid token")
        end
  end.

(** [requireRole(role)]: [None] is [next()]. *)
Definition requireRole (role : string) (user : User.t) : option Response :=
  if negb (String.eqb (User.role user) role) then
    Some (message 403 ("only " +:+ role +:+ "s can access this"))
  else None.

(** The [fileFilter] of the upload middleware. *)
Definition fileFilter (file : File) : bool :=
  bool_decide (mimetype file ∈ [csv_type; xls_type; xlsx_type]).

Definition filter_error : string := "Only CSV, XLS, and XLSX files are allowed".

(** The request interceptor of the front end's HTTP client: the header it
    sets for the stored token. *)
Definition Authorization (token : option string) : option string :=
  if JS.truthy_str token then Some ("Bearer " +:+ default "" token) else None.

(** The routes of [routes/taskRoutes.js], each with the part of the request
    its handler reads.  [GET /my-tasks] is left out: its handler reads
    [req.user._id], which a decoded token does not carry. *)
Inductive Route : Type :=
| GET_all (agentId : option ObjectId)
| POST_draft_upload (file : option File)
| POST_confirm_draft (tasks : option (list Entry.t))
| PATCH_task_assign (id : ObjectId) (newAgentId : option ObjectId)
| PATCH_task_finalize
| PATCH_admin_status (id : ObjectId) (status : option string)
| GET_my
| PATCH_agent_status (id : ObjectId) (status : option string)
| GET_task.

(** The role a route is registered with, if any. *)
Definition route_role (r : Route) : option string :=
  match r with
  | GET_all _ | POST_draft_upload _ | POST_confirm_draft _
  | PATCH_task_assign _ _ | PATCH_task_finalize | PATCH_admin_status _ _ => Some "admin"
  | GET_my | PATCH_agent_status _ _ => Some "agent"
  | GET_task => None
  end.

(** The handler behind a route, after its middleware.  An upload the
    [fileFilter] refuses is an error handed to Express. *)
Definition handler (db : Db) (user : User.t) (r : Route) : Db * Outcome :=
  match r with
  | GET_all agentId => (db, Responded (getAllTasks db agentId))
  | POST_draft_upload file =>
      match file with
      | Some f =>
          if fileFilter f then (db, draftUpload db file)
          else (db, Uncaught filter_error)
      | None => (db, draftUpload db file)
      end
  | POST_confirm_draft tasks =>
      let r := confirmDraft db tasks in (r.1, Responded r.2)
  | PATCH_task_assign id newAgentId =>
      let r := reassignTask db id newAgentId in (r.1, Responded r.2)
  | PATCH_task_finalize =>
      let r := finalizeAssignments db in (r.1, Responded r.2)
  | PATCH_admin_status id status | PATCH_agent_status id status =>
      let r := updateTaskStatus db user id status in (r.1, Responded r.2)
  | GET_my => (db, Responded (getAgentTasks db user))
  | GET_task => (db, Responded (getTasks db user))
  end.

Definition taskRoutes (verify : string → option User.t) (db : Db)
    (authorization : option string) (r : Route) : Db * Outcome :=
  match protect verify authorization with
  | inl res => (db, Responded res)
  | inr user =>
      match route_role r ≫= λ role, requireRole role user with
      | Some res => (db, Responded res)
      | None => handler db user r
      end
  end.

(** A run of requests, each with its own header. *)
Definition run (verify : string → option User.t) (db : Db)
    (reqs : list (option string * Route)) : Db :=
  foldl (λ db req, (taskRoutes verify db req.1 req.2).1) db reqs.

(** The draft of a response as the front end posts it back: [tasks:
    draftTasks], every field of the entry as it was sent. *)
Definition entry_of (d : Draft.t) : Entry.t :=
  Entry.mk (Some (Candidate.firstName (Draft.task d)))
    (Some (Candidate.phone (Draft.task d)))
    (Some (Candidate.notes (Draft.task d)))
    (Some (Entry.mkRef (Some (Draft.id (Draft.draftAssignedTo d)))))
    (Some (Draft.agentId d))
    (Some (Draft.assignedTo d)).

(** What [confirmDraft] reads of an element of the posted [tasks], on the
    shapes [draftUpload] sends: the strings under [firstName], [phone] and
    [notes], the ids under [agentId] and [assignedTo], and the id under
    [draftAssignedTo], read with [?.]. *)
Definition string_at (k : string) (j : Json) : option string :=
  match field k j with
  | Some (JStr s) => Some s
  | _ => None
  end.

Definition id_at (k : string) (j : Json) : option ObjectId :=
  match field k j with
  | Some (JId i) => Some i
  | _ => None
  end.

Definition posted (j : Json) : Entry.t :=
  Entry.mk (string_at "firstName" j) (string_at "phone" j) (string_at "notes" j)
    (match field "draftAssignedTo" j with
     | Some ref => Some (Entry.mkRef (id_at "id" ref))
     | None => None
     end)
    (id_at "agentId" j) (id_at "assignedTo" j).

(** Every stored task passes the schema's validators. *)
Definition valid_store (db : Db) : Prop :=
  ∀ i t, Tasks db !! i = Some t → Task.validate t = true.

(** ** Agents ([addAgent], [getAgents], [agentLogin]) *)

(** The body of [POST /agents].  A request carries an [email]; the other
    fields may be missing. *)
Module AgentBody.
Record t : Type := mk {
  name : option string;
  email : string;
  phone : option string;
  password : option string
}.
End AgentBody.

(** [Agent.findOne({ email })]. *)
Definition findOne_email (email : string) (agents : list Agent.t) : option Agent.t :=
  snd <$> list_find (λ a, Agent.email a = email) agents.

(** The validators of the Agent schema: four required strings. *)
Definition Agent_validate (a : Agent.t) : bool :=
  negb (String.eqb (Agent.name a) "") && negb (String.eqb (Agent.email a) "")
  && negb (String.eqb (Agent.password a) "") && negb (String.eqb (Agent.phone a) "").

Definition Agent_json (a : Agent.t) : Json :=
  JObj [("_id", JId (Agent._id a));
        ("name", JStr (Agent.name a));
        ("email", JStr (Agent.email a));
        ("password", JStr (Agent.password a));
        ("phone", JStr (Agent.phone a));
        ("role", JStr (Agent.role a))].

(** [.select('-password')]. *)
Definition Agent_json_public (a : Agent.t) : Json :=
  JObj [("_id", JId (Agent._id a));
        ("name", JStr (Agent.name a));
        ("email", JStr (Agent.email a));
        ("phone", JStr (Agent.phone a));
        ("role", JStr (Agent.role a))].

Definition illegal_arguments : string := "Illegal arguments: undefined, number".
Definition illegal_compare : string := "Illegal arguments: undefined, string".
Definition agent_validation_failed : string := "Agent validation failed".

(** [addAgent]; [hash] stands for [bcrypt.hash(_, 10)] with the salt of
    this call.  The handler has no [try]: a rejection escapes it. *)
Definition addAgent (hash : string → string) (db : Db) (body : AgentBody.t)
  : Db * Outcome :=
  let email := AgentBody.email body in
  match findOne_email email (Agents db) with
  | Some _ => (db, Responded (message 400 "Agent already exists"))
  | None =>
      match AgentBody.password body with
      | None => (db, Uncaught illegal_arguments)
      | Some password =>
          let hashedPassword := hash password in
          let agent :=
            Agent.mk (fresh (list_to_set (Agent._id <$> Agents db) : gset ObjectId))
              (default "" (AgentBody.name body)) email hashedPassword
              (default "" (AgentBody.phone body)) "agent" in
          if Agent_validate agent then
            (mkDb (Agents db ++ [agent]) (Tasks db),
             Responded (mkResponse 201 (Agent_json agent)))
          else (db, Uncaught agent_validation_failed)
      end
  end.

Definition getAgents (db : Db) : Response :=
  mkResponse 200 (JArr (Agent_json_public <$> Agents db)).

(** [agentLogin]; [compare] stands for [bcrypt.compare], [sign] for
    [jwt.sign(_, JWT_SECRET, { expiresIn: '1d' })] at the time of the
    call. *)
Definition agentLogin (compare : string → string → bool) (sign : User.t → string)
    (db : Db) (email : string) (password : option string) : Response :=
  match findOne_email email (Agents db) with
  | None => message 400 "Invalid credentials"
  | Some agent =>
      match password with
      | None => server_error "Server error" illegal_compare
      | Some password =>
          if negb (compare password (Agent.password agent)) then
            message 400 "Invalid credentials"
          else
            mkResponse 200
              (JObj [("token", JStr (sign (User.mk (Agent._id agent) "agent")))])
      end
  end.

(** ** The admin's task page ([TaskManagement.jsx]): paging *)

(** [filteredTasks.slice(indexOfFirstTask, indexOfLastTask)]. *)
Definition currentTasks {A} (filteredTasks : list A) (currentPage tasksPerPage : nat)
  : list A :=
  let indexOfLastTask := currentPage * tasksPerPage in
  let indexOfFirstTask := indexOfLastTask - tasksPerPage in
  take (indexOfLastTask - indexOfFirstTask) (drop indexOfFirstTask filteredTasks).

(** [Math.ceil(filteredTasks.length / tasksPerPage)]. *)
Definition totalPages {A} (filteredTasks : list A) (tasksPerPage : nat) : nat :=
  (length filteredTasks + tasksPerPage - 1) / tasksPerPage.

(** The two buttons: [Math.max(prev - 1, 1)] and
    [Math.min(prev + 1, totalPages)]. *)
Definition previousPage (prev : nat) : nat := Nat.max (prev - 1) 1.
Definition nextPage (total prev : nat) : nat := Nat.min (prev + 1) total.

(** ** The agent's dashboard ([agent/Dashboard.jsx]): the counters *)

Record Stats : Type := mkStats {
  totalTasks : nat;
  completedTasks : nat;
  pendingTasks : nat;
  overdueTasks : nat
}.

Definition with_status (s : string) (tasks : list (ObjectId * Task.t))
  : list (ObjectId * Task.t) :=
  filter (λ kv, Task.status kv.2 = s) tasks.

(** The counters of [fetchAgentData]; [older] stands for the test
    [daysDiff > 7] on a task's [createdAt] at the time of the call. *)
Definition agent_stats (older : ObjectId * Task.t → bool)
    (tasks : list (ObjectId * Task.t)) : Stats :=
  let completedTasks := length (with_status "completed" tasks) in
  let pendingTasks := length (with_status "pending" tasks) in
  let inProgressTasks := length (with_status "in-progress" tasks) in
  let overdueTasks :=
    length (filter (λ kv, (if String.eqb (Task.status kv.2) "completed"
                           then false else older kv) = true) tasks) in
  mkStats (length tasks) completedTasks (pendingTasks + inProgressTasks) overdueTasks.

(** ** Notifications ([NotificationContext.jsx]) *)

Module Notification.
Record t : Type := mk {
  id : Z;
  timestamp : Z;
  read : bool;
  rest : gmap string Json
}.
Definition set_read (b : bool) (n : t) : t := mk (id n) (timestamp n) b (rest n).
End Notification.

(** What a caller hands to [addNotification]: it is spread last, so an
    [id], [timestamp] or [read] in it wins over the default. *)
Module NotificationInput.
Record t : Type := mk {
  id : option Z;
  timestamp : option Z;
  read : option bool;
  rest : gmap string Json
}.
End NotificationInput.

Record Notifications : Type := mkNotifications {
  notifications : list Notification.t;
  unreadCount : nat
}.

(** [fresh] is [Date.now() + Math.random()] and [now] is [new Date()] at
    the time of the call. *)
Definition addNotification (fresh now : Z) (notification : NotificationInput.t)
    (st : Notifications) : Notifications :=
  let newNotification :=
    Notification.mk (default fresh (NotificationInput.id notification))
      (default now (NotificationInput.timestamp notification))
      (default false (NotificationInput.read notification))
      (NotificationInput.rest notification) in
  mkNotifications (newNotification :: take 49 (notifications st)) (unreadCount st + 1).

Definition markAsRead (notificationId : Z) (st : Notifications) : Notifications :=
  mkNotifications
    ((λ n, if (Notification.id n =? notificationId)%Z
           then Notification.set_read true n else n) <$> notifications st)
    (Nat.max 0 (unreadCount st - 1)).

Definition markAllAsRead (st : Notifications) : Notifications :=
  mkNotifications (Notification.set_read true <$> notifications st) 0.

Definition clearNotification (notificationId : Z) (st : Notifications) : Notifications :=
  let notification :=
    snd <$> list_find (λ n, Notification.id n = notificationId) (notifications st) in
  let newNotifications :=
    filter (λ n, Notification.id n ≠ notificationId) (notifications st) in
  mkNotifications newNotifications
    (match notification with
     | Some n => if negb (Notification.read n)
                 then Nat.max 0 (unreadCount st - 1) else unreadCount st
     | None => unreadCount st
     end).

Definition clearAllNotifications (st : Notifications) : Notifications :=
  mkNotifications [] 0.

Inductive NotificationOp : Type :=
| Add (fresh now : Z) (notification : NotificationInput.t)
| MarkAsRead (notificationId : Z)
| MarkAllAsRead
| Clear (notificationId : Z)
| ClearAll.

Definition notify (st : Notifications) (op : NotificationOp) : Notifications :=
  match op with
  | Add fresh now notification => addNotification fresh now notification st
  | MarkAsRead i => markAsRead i st
  | MarkAllAsRead => markAllAsRead st
  | Clear i => clearNotification i st
  | ClearAll => clearAllNotifications st
  end.

(** ** The session ([AuthContext], [authReducer]) *)

Record AuthState : Type := mkAuthState {
  user : option (gmap string Json);
  token : option string;
  isAuthenticated : bool;
  loading : bool;
  error : option string
}.

Definition initialState : AuthState := mkAuthState None None false true None.

(** The actions by [type]; [OTHER] is any type the reducer does not
    know. *)
Inductive AuthAction : Type :=
| SET_LOADING (payload : bool)
| LOGIN_SUCCESS (user : option (gmap string Json)) (token : option string)
| LOGOUT
| SET_ERROR (payload : option string)
| CLEAR_ERROR
| UPDATE_USER (payload : gmap string Json)
| OTHER.

Definition authReducer (state : AuthState) (action : AuthAction) : AuthState :=
  match action with
  | SET_LOADING payload =>
      mkAuthState (user state) (token state) (isAuthenticated state) payload (error state)
  | LOGIN_SUCCESS u t => mkAuthState u t true false None
  | LOGOUT => mkAuthState None None false false None
  | SET_ERROR payload =>
      mkAuthState (user state) (token state) (isAuthenticated state) false payload
  | CLEAR_ERROR =>
      mkAuthState (user state) (token state) (isAuthenticated state) (loading state) None
  | UPDATE_USER payload =>
      mkAuthState (Some (payload ∪ default ∅ (user state))) (token state)
        (isAuthenticated state) (loading state) (error state)
  | OTHER => state
  end.

(** The response is an array with an element whose [_id] is [id]. *)
Definition listed_in (r : Response) (id : ObjectId) : Prop :=
  ∃ l j, json r = JArr l ∧ j ∈ l ∧ field "_id" j = Some (JId id).

(** The response is an object whose [tasks] array has an element whose
    [_id] is [id]. *)
Definition listed_in_tasks (r : Response) (id : ObjectId) : Prop :=
  ∃ l j, field "tasks" (json r) = Some (JArr l) ∧ j ∈ l ∧ field "_id" j = Some (JId id).

(** A string neither begins nor ends with white space. *)
Definition trimmed (s : string) : Prop :=
  (∀ c s', s = String c s' → JS.is_whitespace c = false)
  ∧ (∀ s' c, s = s' +:+ String c "" → JS.is_whitespace c = false).

(** Whether a character occurs in a string. *)
Fixpoint occurs (c : Ascii.ascii) (s : string) : bool :=
  match s with
  | EmptyString => false
  | String c' s' => Ascii.eqb c' c || occurs c s'
  end.

(** What no route changes in a stored task: the contact fields and the
    legacy reference stay, and a finalized task stays finalized. *)
Definition kept (t t' : Task.t) : Prop :=
  Task.firstName t' = Task.firstName t ∧ Task.phone t' = Task.phone t
  ∧ Task.notes t' = Task.notes t ∧ Task.agentId t' = Task.agentId t
  ∧ (Task.isFinalized t = true → Task.isFinalized t' = true).

(** A toy signer for the examples, the inverse of [toy_verify] on its two
    users. *)
Definition toy_sign (u : User.t) : string :=
  if (User.id u =? 2) && String.eqb (User.role u) "agent" then "agent2-token"
  else "admin-token".

(** A toy token scheme for the examples: the token names the user. *)
Definition toy_verify (token : string) : option User.t :=
  if String.eqb token "admin-token" then Some (User.mk 100 "admin")
  else if String.eqb token "agent2-token" then Some (User.mk 2 "agent")
  else None.

(** * Properties *)

(** ** Round-robin distribution *)

Section RoundRobin.

Lemma mapM_id_imap {A B} (f : nat → A → option B) (g : nat → A → B) (l : list A) :
  (∀ i x, l !! i = Some x → f i x = Some (g i x)) →
  mapM id (imap f l) = Some (imap g l).
Proof.
  revert f g. induction l as [|x l IH]; intros f g Hfg; [done|].
  cbn. rewrite (Hfg 0 x eq_refl). cbn.
  rewrite (IH (f ∘ S) (g ∘ S)); [done|].
  intros i y Hy. apply (Hfg (S i) y Hy).
Qed.

Lemma assign_in_range (agents : list Agent.t) (a0 : Agent.t) (i : nat) (task : Candidate.t) :
  agents ≠ [] →
  assign agents i task
  = Some (paired task (default a0 (agents !! (i mod length agents)))).
Proof.
  intros Hne. unfold assign.
  assert (Hlt : i mod length agents < length agents).
  { apply Nat.mod_upper_bound. destruct agents; [done|]. cbn. lia. }
  destruct (lookup_lt_is_Some_2 agents _ Hlt) as [a Ha].
  rewrite Ha. done.
Qed.

Lemma make_draft_imap (agents : list Agent.t) (a0 : Agent.t) (results : list Candidate.t) :
  agents ≠ [] →
  make_draft agents results
  = Some (imap (λ i task, paired task (default a0 (agents !! (i mod length agents))))
            results).
Proof.
  intros Hne. unfold make_draft. apply mapM_id_imap.
  intros i x _. by apply assign_in_range.
Qed.

Lemma div_step (M N k : nat) :
  k < M →
  (S N + M - 1 - k) / M
  = (N + M - 1 - k) / M + (if decide (N mod M = k) then 1 else 0).
Proof.
  intros Hk.
  assert (HM : M ≠ 0) by lia.
  pose proof (Nat.div_mod N M HM) as Hdm.
  pose proof (Nat.mod_upper_bound N M HM) as Hr.
  set (q := N / M) in *. set (r := N mod M) in *.
  destruct (decide (r = k)) as [Heq|Hneq].
  - rewrite <- (Nat.div_unique (S N + M - 1 - k) M (S q) 0); [|lia|nia].
    rewrite <- (Nat.div_unique (N + M - 1 - k) M q (M - 1)); [lia|lia|nia].
  - destruct (decide (k < r)) as [Hlt|Hge].
    + rewrite <- (Nat.div_unique (S N + M - 1 - k) M (S q) (r - k)); [|lia|nia].
      rewrite <- (Nat.div_unique (N + M - 1 - k) M (S q) (r - k - 1)); [lia|lia|nia].
    + rewrite <- (Nat.div_unique (S N + M - 1 - k) M q (r + M - k)); [|lia|nia].
      rewrite <- (Nat.div_unique (N + M - 1 - k) M q (r + M - 1 - k)); [lia|lia|nia].
Qed.

Lemma floor_or_ceil (M N k c : nat) :
  k < M → c = (N + M - 1 - k) / M →
  c = N / M ∨ c = (N + M - 1) / M.
Proof.
  intros Hk ->.
  assert (HM : M ≠ 0) by lia.
  assert (H1 : N / M ≤ (N + M - 1 - k) / M) by (apply Nat.Div0.div_le_mono; lia).
  assert (H2 : (N + M - 1 - k) / M ≤ (N + M - 1) / M) by (apply Nat.Div0.div_le_mono; lia).
  assert (H3 : (N + M - 1) / M ≤ (N + 1 * M) / M) by (apply Nat.Div0.div_le_mono; lia).
  rewrite Nat.div_add in H3 by done. lia.
Qed.

Lemma received_count (agents : list Agent.t) (a0 agent : Agent.t) (k : nat)
    (results : list Candidate.t) :
  NoDup (Agent._id <$> agents) →
  agents !! k = Some agent →
  received (Agent._id agent)
    (imap (λ i task, paired task (default a0 (agents !! (i mod length agents)))) results)
  = (length results + length agents - 1 - k) / length agents.
Proof.
  intros Hnd Hk.
  assert (HkM : k < length agents) by (by eapply lookup_lt_Some).
  induction results as [|task results IH] using rev_ind.
  - cbn. symmetry. apply Nat.div_small. lia.
  - unfold received in *. rewrite imap_app, filter_app, length_app, IH.
    rewrite length_app. cbn [length].
    replace (length results + 1) with (S (length results)) by lia.
    rewrite div_step by done. f_equal.
    cbn [imap]. rewrite Nat.add_0_r.
    assert (Hlt : length results mod length agents < length agents)
      by (apply Nat.mod_upper_bound; lia).
    destruct (lookup_lt_is_Some_2 agents _ Hlt) as [a Ha].
    rewrite Ha, filter_cons, filter_nil. cbn.
    destruct (decide (length results mod length agents = k)) as [Hm|Hm].
    + rewrite decide_True; [done|]. rewrite Hm in Ha. by simplify_eq/=.
    + rewrite decide_False; [done|]. intros Hid. apply Hm.
      eapply (NoDup_lookup _ _ _ _ Hnd); rewrite list_lookup_fmap.
      * rewrite Ha. cbn. by rewrite Hid.
      * by rewrite Hk.
Qed.

End RoundRobin.

Lemma draftUpload_yields (db : Db) (file : File) (results : list Candidate.t) :
  yields file results →
  Agents db ≠ [] →
  ∃ draft,
    make_draft (Agents db) results = Some draft
    ∧ draftUpload db (Some file) = Responded (draft_response draft).
Proof.
  intros Hy Hne.
  destruct (Agents db) as [|a0 rest] eqn:Hag; [done|].
  eexists. split; [apply make_draft_imap; done|].
  unfold draftUpload. rewrite Hag. cbn [length Nat.eqb].
  destruct Hy as [jsonData Hx Hs|Hx Hc]; unfold is_excel in Hx; rewrite Hx.
  - rewrite Hs. by rewrite (make_draft_imap (a0 :: rest) a0).
  - rewrite Hc. by rewrite (make_draft_imap (a0 :: rest) a0).
Qed.

Lemma drafted_for_draft (id : ObjectId) (draft : list Draft.t) :
  drafted_for id (Draft_json <$> draft) = received id draft.
Proof.
  unfold drafted_for, received. induction draft as [|d draft IH]; [done|].
  rewrite fmap_cons, !filter_cons.
  change (assigned_to (Draft_json d)) with (Some (Draft.assignedTo d)).
  destruct (decide (Draft.assignedTo d = id)) as [Heq|Hne].
  - rewrite decide_True by congruence. cbn. by rewrite IH.
  - rewrite decide_False by congruence. done.
Qed.

(** C1. For an upload that yields N accepted records and M >= 1 agents, the
    response is 200 with [total = N] and a draft array of N entries; entry i
    carries the fields of record i and, in [agentId], [assignedTo] and
    [draftAssignedTo], the agent at position i mod M; an agent receives
    floor(N/M) or ceil(N/M) entries; the response is a function of the file
    and the agent list alone. *)
Theorem round_robin_draft (db : Db) (file : File) (results : list Candidate.t) :
  yields file results →
  1 ≤ length (Agents db) →
  ∃ l : list Json,
    draftUpload db (Some file)
    = Responded (mkResponse 200
                   (JObj [("total", JNum (Z.of_nat (length results)));
                          ("draft", JArr l)]))
    ∧ length l = length results
    ∧ (∀ i task, results !! i = Some task →
         ∃ agent, Agents db !! (i mod length (Agents db)) = Some agent
                  ∧ l !! i
                    = Some (JObj [("firstName", JStr (Candidate.firstName task));
                                  ("phone", JStr (Candidate.phone task));
                                  ("notes", JStr (Candidate.notes task));
                                  ("agentId", JId (Agent._id agent));
                                  ("assignedTo", JId (Agent._id agent));
                                  ("draftAssignedTo",
                                    JObj [("id", JId (Agent._id agent));
                                          ("name", JStr (Agent.name agent));
                                          ("email", JStr (Agent.email agent))])]))
    ∧ (NoDup (Agent._id <$> Agents db) →
       ∀ k agent, Agents db !! k = Some agent →
         drafted_for (Agent._id agent) l = length results / length (Agents db)
         ∨ drafted_for (Agent._id agent) l
           = (length results + length (Agents db) - 1) / length (Agents db))
    ∧ (∀ db', Agents db' = Agents db →
         draftUpload db' (Some file)
         = Responded (mkResponse 200
                        (JObj [("total", JNum (Z.of_nat (length results)));
                               ("draft", JArr l)]))).
Proof.
  intros Hy HM.
  assert (Hne : Agents db ≠ []) by (destruct (Agents db); [cbn in HM; lia|done]).
  destruct (draftUpload_yields db file results Hy Hne) as (draft & Hd & Hresp).
  exists (Draft_json <$> draft).
  destruct (Agents db) as [|a0 rest] eqn:Hag; [done|].
  rewrite (make_draft_imap _ a0) in Hd by done.
  apply (inj Some) in Hd.
  assert (Hlen : length draft = length results) by (by rewrite <- Hd, length_imap).
  split; [by rewrite Hresp; unfold draft_response; rewrite Hlen|].
  split; [by rewrite length_fmap|]. split; [|split].
  - intros i task Hi.
    assert (Hlt : i mod length (a0 :: rest) < length (a0 :: rest))
      by (apply Nat.mod_upper_bound; cbn; lia).
    destruct (lookup_lt_is_Some_2 _ _ Hlt) as [agent Hagent].
    exists agent. split; [done|].
    rewrite list_lookup_fmap, <- Hd, list_lookup_imap, Hi.
    cbn [fmap option_fmap option_map]. by rewrite Hagent.
  - intros Hnd k agent Hk. rewrite drafted_for_draft, <- Hd.
    eapply floor_or_ceil; [by eapply lookup_lt_Some|].
    by apply received_count.
  - intros db' Hsame.
    destruct (draftUpload_yields db' file results Hy) as (draft' & Hd' & Hresp').
    + by rewrite Hsame.
    + rewrite Hsame, (make_draft_imap _ a0), Hd in Hd' by done.
      apply (inj Some) in Hd'. subst draft'.
      by rewrite Hresp'; unfold draft_response; rewrite Hlen.
Qed.

(** ** Commit *)

Section Commit.

Implicit Types (coll : gmap ObjectId Task.t) (docs : list Task.t).

Lemma store_all_old docs coll i t :
  coll !! i = Some t → (store_all docs coll).1 !! i = Some t.
Proof.
  revert coll. induction docs as [|x docs IH]; intros coll Hi; [done|].
  cbn. apply IH. rewrite lookup_insert_ne; [done|].
  intros <-. apply (is_fresh (dom coll)). apply elem_of_dom. eauto.
Qed.

Lemma store_all_new docs coll i t :
  (store_all docs coll).1 !! i = Some t → coll !! i = Some t ∨ t ∈ docs.
Proof.
  revert coll. induction docs as [|x docs IH]; intros coll Hi; [by left|].
  cbn in Hi. apply IH in Hi as [Hi|Hi].
  - rewrite lookup_insert in Hi. case_decide.
    + right. simplify_eq. apply list_elem_of_here.
    + by left.
  - right. by apply list_elem_of_further.
Qed.

Lemma store_all_size docs coll :
  size (store_all docs coll).1 = size coll + length docs
  ∧ length (store_all docs coll).2 = length docs.
Proof.
  revert coll. induction docs as [|x docs IH]; intros coll; [cbn; lia|].
  cbn. destruct (IH (<[fresh (dom coll) := x]> coll)) as [-> ->].
  rewrite map_size_insert_None; [lia|].
  apply not_elem_of_dom. apply is_fresh.
Qed.

Lemma Task_of_process_Some (e : Entry.t) (t : Task.t) :
  Task_of (process e) = Some t →
  entry_ok e = true
  ∧ Entry.firstName e = Some (Task.firstName t)
  ∧ Entry.phone e = Some (Task.phone t)
  ∧ Task.firstName t ≠ "" ∧ Task.phone t ≠ ""
  ∧ Task.agentId t = or_id (Entry.draftAssignedTo e ≫= Entry.id) (Entry.agentId e)
  ∧ Task.assignedTo t = or_id (Entry.draftAssignedTo e ≫= Entry.id) (Entry.assignedTo e)
  ∧ Task.status t = "pending" ∧ Task.isFinalized t = false.
Proof.
  unfold Task_of, process, entry_ok. cbn.
  destruct (Entry.firstName e) as [f|], (Entry.phone e) as [p|]; try done.
  unfold Task.validate. cbn.
  destruct (String.eqb f "") eqn:Hf, (String.eqb p "") eqn:Hp; try done.
  cbn. intros [= <-]. cbn.
  apply String.eqb_neq in Hf, Hp. done.
Qed.

Lemma Task_of_process_ok (e : Entry.t) :
  entry_ok e = true → is_Some (Task_of (process e)).
Proof.
  unfold Task_of, process, entry_ok, JS.truthy_str. cbn. intros H.
  destruct (Entry.firstName e) as [f|], (Entry.phone e) as [p|];
    cbn in H; try done; [|by rewrite andb_false_r in H].
  unfold Task.validate. cbn.
  destruct (String.eqb f ""), (String.eqb p ""); done.
Qed.

Lemma validate_entries (tasks : list Entry.t) :
  is_Some (mapM Task_of (process <$> tasks)) ↔ Forall (λ e, entry_ok e = true) tasks.
Proof.
  rewrite mapM_is_Some, Forall_fmap. apply Forall_iff. intros e. cbn. split.
  - intros [t Ht]. by apply Task_of_process_Some in Ht as [? _].
  - apply Task_of_process_ok.
Qed.

End Commit.

Lemma confirmDraft_valid (db : Db) (tasks : list Entry.t) (valid : list Task.t) :
  tasks ≠ [] →
  mapM Task_of (process <$> tasks) = Some valid →
  confirmDraft db (Some tasks)
  = (mkDb (Agents db) (store_all valid (Tasks db)).1,
     mkResponse 201
       (JObj [("message", JStr "Tasks saved successfully");
              ("count", JNum (Z.of_nat (length tasks)))])).
Proof.
  intros Hne Hv. unfold confirmDraft, insertMany.
  pose proof (length_mapM _ _ _ Hv) as Hl. rewrite length_fmap in Hl.
  pose proof (store_all_size valid (Tasks db)) as [_ Hlen].
  destruct tasks as [|e tasks]; [done|]. cbn [length Nat.eqb].
  rewrite Hv. cbn [mbind option_bind].
  destruct (store_all valid (Tasks db)) as [coll inserted].
  cbn [fst snd] in *. by rewrite Hlen, <- Hl.
Qed.

Lemma confirmDraft_invalid (db : Db) (tasks : list Entry.t) :
  tasks ≠ [] →
  mapM Task_of (process <$> tasks) = None →
  confirmDraft db (Some tasks) = (db, server_error "Server error" validation_failed).
Proof.
  intros Hne Hv. unfold confirmDraft, insertMany.
  destruct tasks as [|e tasks]; [done|]. cbn [length Nat.eqb].
  by rewrite Hv.
Qed.

Lemma store_all_inserted (docs : list Task.t) (coll : gmap ObjectId Task.t) :
  (store_all docs coll).2.*2 = docs
  ∧ NoDup (store_all docs coll).2.*1
  ∧ (∀ j i t, (store_all docs coll).2 !! j = Some (i, t) →
       coll !! i = None ∧ (store_all docs coll).1 !! i = Some t)
  ∧ (∀ i, is_Some ((store_all docs coll).1 !! i) →
       is_Some (coll !! i) ∨ i ∈ (store_all docs coll).2.*1).
Proof.
  revert coll. induction docs as [|x docs IH]; intros coll.
  { cbn. split; [done|]. split; [apply NoDup_nil_2|]. split; [done|]. by left. }
  cbn [store_all fst snd fmap list_fmap].
  set (i0 := fresh (dom coll)).
  assert (Hi0 : coll !! i0 = None) by (apply not_elem_of_dom, is_fresh).
  destruct (IH (<[i0 := x]> coll)) as (Hdocs & Hnd & Hat & Hdom).
  split; [by rewrite Hdocs|]. split; [|split].
  - apply NoDup_cons. split; [|done].
    intros Hin. apply list_elem_of_fmap in Hin as ([i t] & Heq & Hin). cbn in Heq.
    apply list_elem_of_lookup in Hin as [j Hj].
    destruct (Hat j i t Hj) as [Hnone _]. subst i.
    by rewrite lookup_insert_eq in Hnone.
  - intros [|j] i t Hj.
    + injection Hj as <- <-. split; [done|].
      apply store_all_old. by rewrite lookup_insert_eq.
    + destruct (Hat j i t Hj) as [Hnone Hsome]. split; [|done].
      rewrite lookup_insert in Hnone. by case_decide.
  - intros i Hi. destruct (Hdom i Hi) as [Hold|Hin].
    + rewrite lookup_insert in Hold. case_decide.
      * right. subst i. apply list_elem_of_here.
      * by left.
    + right. by apply list_elem_of_further.
Qed.

(** C2 (as the code has it). A non-empty batch is written as the caller
    sent it.  If every entry has a non-empty [firstName] and [phone], the
    answer is 201 with the count, the stored tasks stay, and each entry, in
    order, is stored under an id of its own that was free: with the entry's
    [firstName], [phone] and [notes] (empty when missing), status pending,
    not finalized, and as worker reference in [agentId] and [assignedTo] the
    entry's [draftAssignedTo.id] when present, else the entry's own
    [agentId], [assignedTo], whatever the Agent collection holds; nothing
    else is stored.  If an entry lacks a [firstName] or [phone] or has an
    empty one, the answer is 500 and the store is as it was.  (The text of
    the error in the 500 body is not stated.) *)
Theorem commit_keeps_references (db : Db) (tasks : list Entry.t) :
  tasks ≠ [] →
  let required (e : Entry.t) :=
    ∃ f p, Entry.firstName e = Some f ∧ f ≠ "" ∧ Entry.phone e = Some p ∧ p ≠ "" in
  let r := confirmDraft db (Some tasks) in
  Agents r.1 = Agents db
  ∧ (∀ i t, Tasks db !! i = Some t → Tasks r.1 !! i = Some t)
  ∧ (Forall required tasks →
       r.2 = mkResponse 201
               (JObj [("message", JStr "Tasks saved successfully");
                      ("count", JNum (Z.of_nat (length tasks)))])
       ∧ ∃ ids : list ObjectId,
           length ids = length tasks ∧ NoDup ids
           ∧ (∀ i, i ∈ ids → Tasks db !! i = None)
           ∧ (∀ i, is_Some (Tasks r.1 !! i) → is_Some (Tasks db !! i) ∨ i ∈ ids)
           ∧ (∀ j e i, tasks !! j = Some e → ids !! j = Some i →
                ∃ f p,
                  Entry.firstName e = Some f ∧ f ≠ ""
                  ∧ Entry.phone e = Some p ∧ p ≠ ""
                  ∧ Tasks r.1 !! i
                    = Some (Task.mk f p
                              (match Entry.notes e with Some n => n | None => "" end)
                              (match Entry.draftAssignedTo e ≫= Entry.id with
                               | Some w => Some w
                               | None => Entry.agentId e
                               end)
                              (match Entry.draftAssignedTo e ≫= Entry.id with
                               | Some w => Some w
                               | None => Entry.assignedTo e
                               end)
                              "pending" false)))
  ∧ (¬ Forall required tasks →
       r.1 = db ∧ statusCode r.2 = 500
       ∧ field "message" (json r.2) = Some (JStr "Server error")).
Proof.
  intros Hne required r. subst r.
  assert (Hreq : ∀ e, required e ↔ entry_ok e = true).
  { intros e. unfold required, entry_ok, JS.truthy_str. split.
    - intros (f & p & -> & Hf & -> & Hp).
      apply String.eqb_neq in Hf, Hp. by rewrite Hf, Hp.
    - destruct (Entry.firstName e) as [f|], (Entry.phone e) as [p|]; try done.
      + intros [Hf Hp]%andb_true_iff. exists f, p.
        apply negb_true_iff in Hf, Hp. apply String.eqb_neq in Hf, Hp. done.
      + by rewrite andb_false_r. }
  assert (Hall : Forall required tasks ↔ Forall (λ e, entry_ok e = true) tasks).
  { rewrite !Forall_forall. split; intros H e He; apply Hreq, H, He. }
  destruct (mapM Task_of (process <$> tasks)) as [valid|] eqn:Hv.
  - rewrite (confirmDraft_valid db tasks valid Hne Hv). cbn [fst snd Agents Tasks].
    split; [done|]. split; [intros i t; apply store_all_old|]. split.
    + intros _. split; [done|].
      destruct (store_all_inserted valid (Tasks db)) as (Hdocs & Hnd & Hat & Hdom).
      pose proof (length_mapM _ _ _ Hv) as Hl. rewrite length_fmap in Hl.
      exists (store_all valid (Tasks db)).2.*1.
      split; [by rewrite length_fmap, <- (length_fmap snd), Hdocs|].
      split; [done|]. split; [|split; [done|]].
      * intros i Hin. apply list_elem_of_fmap in Hin as ([i' t] & -> & Hin).
        apply list_elem_of_lookup in Hin as [j Hj]. by destruct (Hat j i' t Hj).
      * intros j e i He Hi. rewrite list_lookup_fmap in Hi.
        destruct ((store_all valid (Tasks db)).2 !! j) as [[i' t]|] eqn:Hj; [|done].
        cbn in Hi. injection Hi as ->.
        destruct (Hat j i t Hj) as [_ Hstored].
        assert (Ht : valid !! j = Some t).
        { rewrite <- Hdocs, list_lookup_fmap, Hj. done. }
        apply mapM_Some_1 in Hv.
        destruct (Forall2_lookup_r _ _ _ _ _ Hv Ht) as (d & Hd & Hof).
        rewrite list_lookup_fmap, He in Hd. cbn in Hd. injection Hd as <-.
        rewrite Hstored. clear -Hof.
        unfold Task_of, process in Hof. cbn in Hof.
        destruct (Entry.firstName e) as [f|]; [|done].
        destruct (Entry.phone e) as [p|]; [|done].
        destruct (Task.validate _) eqn:Hval; [|done]. injection Hof as <-.
        unfold Task.validate in Hval. cbn in Hval.
        apply andb_true_iff in Hval as [[Hf Hp]%andb_true_iff _].
        apply negb_true_iff in Hf, Hp. apply String.eqb_neq in Hf, Hp.
        exists f, p. repeat (split; [done|]). f_equal. f_equal.
        { destruct (Entry.notes e) as [n|]; [|done]. cbn.
          by destruct (String.eqb_spec n "") as [->|]. }
        { unfold or_id. by destruct (Entry.draftAssignedTo e ≫= Entry.id). }
        { unfold or_id. by destruct (Entry.draftAssignedTo e ≫= Entry.id). }
    + intros Hbad. exfalso. apply Hbad, Hall, validate_entries. by rewrite Hv.
  - rewrite (confirmDraft_invalid db tasks Hne Hv). cbn [fst snd].
    split; [done|]. split; [done|]. split; [|done].
    intros Hok. apply Hall, validate_entries in Hok. rewrite Hv in Hok.
    by destruct Hok.
Qed.


(** C2, counterexample. With agent 1 the only agent, an entry proposing
    worker 9 is committed with [assignedTo = 9]: the reference is neither
    checked nor replaced, and the response carries only a message and a
    count. *)
Lemma commit_keeps_stale_reference :
  let db := mkDb [W1] ∅ in
  let r := confirmDraft db (Some [stale_entry]) in
  Agent._id <$> Agents db = [1]
  ∧ Tasks r.1 !! 0 = Some (Task.mk "Ann" "555-1111" "" (Some 9) (Some 9) "pending" false)
  ∧ r.2 = mkResponse 201 (JObj [("message", JStr "Tasks saved successfully");
                                ("count", JNum 1)]).
Proof. vm_compute. done. Qed.

Lemma commit_keeps_references_witness :
  [stale_entry] ≠ []
  ∧ (confirmDraft (mkDb [W1] ∅) (Some [stale_entry])).2
    = mkResponse 201 (JObj [("message", JStr "Tasks saved successfully");
                            ("count", JNum 1)]).
Proof.
  split; [done|].
  destruct (commit_keeps_references (mkDb [W1] ∅) [stale_entry]) as (_ & _ & H & _);
    [done|].
  apply H. apply Forall_cons. split; [|apply Forall_nil_2].
  exists "Ann", "555-1111". by repeat split.
Defined.

(** ** No agents *)

Lemma confirmDraft_ignores_agents (db1 db2 : Db) (tasks : option (list Entry.t)) :
  Tasks db1 = Tasks db2 →
  (confirmDraft db1 tasks).2 = (confirmDraft db2 tasks).2
  ∧ Tasks (confirmDraft db1 tasks).1 = Tasks (confirmDraft db2 tasks).1.
Proof.
  intros Heq. unfold confirmDraft. destruct tasks as [tasks|]; [|done].
  destruct (length tasks =? 0); [done|]. rewrite Heq.
  by destruct (insertMany _ _) as [[coll inserted]|].
Qed.

(** C3, counterexample. With no agent at all, a one-entry commit answers
    201 and creates the task. *)
Lemma commit_without_agents :
  let db := mkDb [] ∅ in
  let r := confirmDraft db (Some [stale_entry]) in
  Agents db = []
  ∧ statusCode r.2 = 201
  ∧ Tasks r.1 !! 0 = Some (Task.mk "Ann" "555-1111" "" (Some 9) (Some 9) "pending" false).
Proof. vm_compute. done. Qed.

(** C3 (as the code has it). With an empty Agent collection the upload of
    any file answers 400 "No agents available"; the commit never reads the
    Agent collection: its response and the tasks it stores are the same
    whatever agents exist, and a non-empty batch of valid entries is
    created with 201. *)
Theorem no_agents_guard (db : Db) (file : File) :
  Agents db = [] →
  draftUpload db (Some file) = Responded (message 400 "No agents available")
  ∧ (∀ db' tasks, Tasks db' = Tasks db →
       (confirmDraft db tasks).2 = (confirmDraft db' tasks).2
       ∧ Tasks (confirmDraft db tasks).1 = Tasks (confirmDraft db' tasks).1)
  ∧ (∀ tasks, tasks ≠ [] → Forall (λ e, entry_ok e = true) tasks →
       statusCode (confirmDraft db (Some tasks)).2 = 201).
Proof.
  intros Hno. split; [|split].
  - unfold draftUpload. by rewrite Hno.
  - intros db' tasks Heq. by apply confirmDraft_ignores_agents.
  - intros tasks Hne Hok.
    apply validate_entries in Hok as [valid Hv].
    by rewrite (confirmDraft_valid db tasks valid Hne Hv).
Qed.

Lemma no_agents_guard_witness :
  Agents (mkDb [] ∅) = []
  ∧ draftUpload (mkDb [] ∅) (Some (csv_file [row [("FirstName", "Ann"); ("Phone", "555-1111")]]))
    = Responded (message 400 "No agents available").
Proof.
  split; [done|].
  by destruct (no_agents_guard (mkDb [] ∅)
                 (csv_file [row [("FirstName", "Ann"); ("Phone", "555-1111")]]) eq_refl)
    as [H _].
Defined.

(** ** Row filter *)

Lemma csv_row_accepts (data : CRow) (c : Candidate.t) :
  csv_row data = Some c ↔
  ∃ f p, data !! "FirstName" = Some f ∧ data !! "Phone" = Some p
         ∧ f ≠ "" ∧ p ≠ ""
         ∧ c = Candidate.mk (JS.trim f) (JS.trim p)
                 (from_option JS.trim "" (data !! "Notes")).
Proof.
  unfold csv_row. cbv zeta.
  assert (Hn : (if JS.truthy_str (JS.trim <$> data !! "Notes")
                then default "" (JS.trim <$> data !! "Notes") else "")
               = from_option JS.trim "" (data !! "Notes")).
  { destruct (data !! "Notes") as [n|]; [|done]. cbn.
    by destruct (String.eqb_spec (JS.trim n) "") as [->|]. }
  rewrite Hn. clear Hn.
  destruct (data !! "FirstName") as [f|]; [|split; [done|by intros (?&?&?&_)]].
  destruct (data !! "Phone") as [p|]; [|split; [done|by intros (?&?&_&?&_)]].
  cbn.
  destruct (String.eqb_spec f "") as [->|Hf]; cbn.
  { split; [done|]. intros (?&?&[= <-]&_&?&_). done. }
  destruct (String.eqb_spec p "") as [->|Hp]; cbn.
  { split; [done|]. intros (?&?&_&[= <-]&_&?&_). done. }
  split.
  - intros [= <-]. by exists f, p.
  - intros (?&?&[= <-]&[= <-]&_&_&->). done.
Qed.

(** Columns other than the three the filter reads do not matter. *)
Lemma csv_row_extra_column (data : CRow) (k v : string) :
  k ≠ "FirstName" → k ≠ "Phone" → k ≠ "Notes" →
  csv_row (<[k := v]> data) = csv_row data.
Proof.
  intros H1 H2 H3. unfold csv_row. by rewrite !lookup_insert_ne.
Qed.

Lemma xlsx_row_extra_column (r : XRow) (k : string) (v : JS.Cell) :
  k ≠ "FirstName" → k ≠ "Phone" → k ≠ "Notes" →
  xlsx_row (<[k := v]> r) = xlsx_row r.
Proof.
  intros H1 H2 H3. unfold xlsx_row. by rewrite !lookup_insert_ne.
Qed.

(** C4, at the failing input. A row whose [FirstName] is only blanks passes
    the filter, in both formats, and enters the draft with an empty
    [firstName]: the test is made on the raw value, the trimming after it.
    On a sheet, a numeric cell 0 fails the test although its text is not
    empty. *)
Theorem blank_name_row_accepted :
  JS.trim "   " = ""
  ∧ csv_row (row [("FirstName", "   "); ("Phone", "555-1111")])
    = Some (Candidate.mk "" "555-1111" "")
  ∧ xlsx_row (<["FirstName" := JS.CStr "   "]> (<["Phone" := JS.CStr "555-1111"]> ∅))
    = Some (Candidate.mk "" "555-1111" "")
  ∧ draftUpload (mkDb [W1] ∅)
      (Some (csv_file [row [("FirstName", "   "); ("Phone", "555-1111")]]))
    = Responded (draft_response [paired (Candidate.mk "" "555-1111" "") W1])
  ∧ xlsx_row (<["FirstName" := JS.CStr "Ann"]> (<["Phone" := JS.CNum 0]> ∅)) = None
  ∧ JS.trim (JS.String_ (Some (JS.CNum 0))) = "0".
Proof. vm_compute. done. Qed.

(** ** Empty upload *)

(** C7, counterexample. A CSV file whose only row lacks a name decodes,
    leaves no record, and is answered 200 with an empty draft. *)
Lemma empty_upload_succeeds :
  let file := csv_file [row [("FirstName", ""); ("Phone", "555-1111")]] in
  omap csv_row (csv_rows (buffer file)) = []
  ∧ draftUpload (mkDb [W1] ∅) (Some file)
    = Responded (mkResponse 200 (JObj [("total", JNum 0); ("draft", JArr [])])).
Proof. vm_compute. done. Qed.

(** C7 (as the code has it). An upload that decodes and leaves no record,
    with at least one agent, is answered 200 with [total = 0] and an empty
    draft. *)
Theorem empty_upload_draft (db : Db) (file : File) :
  yields file [] →
  1 ≤ length (Agents db) →
  draftUpload db (Some file)
  = Responded (mkResponse 200 (JObj [("total", JNum 0); ("draft", JArr [])])).
Proof.
  intros Hy HM.
  destruct (draftUpload_yields db file [] Hy) as (draft & Hd & ->).
  - destruct (Agents db); [cbn in HM; lia|done].
  - cbn in Hd. by injection Hd as <-.
Qed.

Lemma empty_upload_draft_witness :
  draftUpload (mkDb [W1; W2] ∅) (Some (csv_file []))
  = Responded (mkResponse 200 (JObj [("total", JNum 0); ("draft", JArr [])])).
Proof.
  apply empty_upload_draft.
  - apply (yields_csv (csv_file [])); reflexivity.
  - cbn. lia.
Defined.

(** ** Lifecycle *)

Lemma same_id_iff (ref : option ObjectId) (id : ObjectId) :
  same_id ref id = true ↔ ref = Some id.
Proof.
  destruct ref as [r|]; cbn; [|done].
  rewrite Nat.eqb_eq. split; congruence.
Qed.

Lemma isAssigned_iff (task : Task.t) (user : User.t) :
  isAssigned task user = true
  ↔ Task.assignedTo task = Some (User.id user)
    ∨ Task.agentId task = Some (User.id user).
Proof.
  unfold isAssigned. by rewrite orb_true_iff, !same_id_iff.
Qed.

Lemma validate_set_status (status : string) (task : Task.t) :
  status ∈ allowedStatuses → Task.validate task = true →
  Task.validate (Task.set_status status task) = true.
Proof.
  unfold Task.validate. cbn. intros Hs.
  rewrite !andb_true_iff. intros [[-> ->] _].
  by rewrite bool_decide_eq_true_2.
Qed.

Lemma updateTaskStatus_denied (db : Db) (user : User.t) (taskId : ObjectId)
    (status : string) (task : Task.t) :
  Tasks db !! taskId = Some task → status ∈ allowedStatuses →
  User.role user = "agent" → isAssigned task user = false →
  updateTaskStatus db user taskId (Some status)
  = (db, message 403 "You are not assigned to this task").
Proof.
  intros Ht Hs Hr Ha. unfold updateTaskStatus.
  by rewrite bool_decide_eq_true_2, Ht, Hr, Ha.
Qed.

Lemma updateTaskStatus_applied (db : Db) (user : User.t) (taskId : ObjectId)
    (status : string) (task : Task.t) :
  Tasks db !! taskId = Some task → status ∈ allowedStatuses →
  Task.validate task = true →
  User.role user ≠ "agent" ∨ isAssigned task user = true →
  updateTaskStatus db user taskId (Some status)
  = (mkDb (Agents db) (<[taskId := Task.set_status status task]> (Tasks db)),
     status_updated taskId (Task.set_status status task)).
Proof.
  intros Ht Hs Hv Hperm. unfold updateTaskStatus, save.
  rewrite bool_decide_eq_true_2, Ht by done. cbn [negb].
  rewrite validate_set_status by done.
  destruct Hperm as [Hr| ->].
  - apply String.eqb_neq in Hr. by rewrite Hr.
  - by rewrite andb_false_r.
Qed.

Lemma updateTaskStatus_200 (db : Db) (user : User.t) (taskId : ObjectId)
    (status : option string) :
  statusCode (updateTaskStatus db user taskId status).2 = 200 →
  ∃ s task,
    status = Some s ∧ Tasks db !! taskId = Some task
    ∧ (updateTaskStatus db user taskId status).1
      = mkDb (Agents db) (<[taskId := Task.set_status s task]> (Tasks db)).
Proof.
  unfold updateTaskStatus, save.
  destruct status as [s|]; [|done].
  destruct (negb _); [done|].
  destruct (Tasks db !! taskId) as [task|]; [|done].
  destruct (_ && _); [done|].
  destruct (Task.validate _); [|done].
  intros _. by exists s, task.
Qed.

Lemma reassignTask_applied (db : Db) (id : ObjectId) (newAgentId : option ObjectId)
    (task : Task.t) :
  Tasks db !! id = Some task → Task.validate task = true →
  reassignTask db id newAgentId
  = (mkDb (Agents db) (<[id := Task.set_assignedTo newAgentId task]> (Tasks db)),
     reassigned id (Task.set_assignedTo newAgentId task)).
Proof.
  intros Ht Hv. unfold reassignTask, save. rewrite Ht.
  change (Task.validate (Task.set_assignedTo newAgentId task))
    with (Task.validate task).
  by rewrite Hv.
Qed.

Lemma reassignTask_200 (db : Db) (id : ObjectId) (newAgentId : option ObjectId) :
  statusCode (reassignTask db id newAgentId).2 = 200 →
  ∃ task,
    Tasks db !! id = Some task
    ∧ (reassignTask db id newAgentId).1
      = mkDb (Agents db) (<[id := Task.set_assignedTo newAgentId task]> (Tasks db)).
Proof.
  unfold reassignTask, save.
  destruct (Tasks db !! id) as [task|]; [|done].
  destruct (Task.validate _); [|done].
  intros _. by exists task.
Qed.

(** C5, counterexample. Task 7 is assigned to agent 1 and still carries
    agent 2 in its legacy [agentId]; agent 2 sets its status and is
    answered 200. *)
Lemma update_by_former_agent :
  let db := mkDb [W1; W2] {[7 := reassigned_task]} in
  let r := updateTaskStatus db (User.mk 2 "agent") 7 (Some "completed") in
  Task.assignedTo reassigned_task = Some 1
  ∧ statusCode r.2 = 200
  ∧ Task.status <$> Tasks r.1 !! 7 = Some "completed".
Proof. vm_compute. done. Qed.

(** C5 (as the code has it). For a stored task and an allowed status: an
    agent whose id is neither the task's [assignedTo] nor its [agentId] is
    answered 403 and nothing changes; an agent whose id is one of the two,
    and an admin for any task, get the status set. *)
Theorem status_update_permission (db : Db) (user : User.t) (taskId : ObjectId)
    (status : string) (task : Task.t) :
  Tasks db !! taskId = Some task →
  status ∈ allowedStatuses →
  Task.validate task = true →
  let r := updateTaskStatus db user taskId (Some status) in
  let updated :=
    (mkDb (Agents db) (<[taskId := Task.set_status status task]> (Tasks db)),
     status_updated taskId (Task.set_status status task)) in
  (User.role user = "agent" →
   Task.assignedTo task ≠ Some (User.id user) →
   Task.agentId task ≠ Some (User.id user) →
   r = (db, message 403 "You are not assigned to this task"))
  ∧ (User.role user = "agent" →
     Task.assignedTo task = Some (User.id user)
     ∨ Task.agentId task = Some (User.id user) →
     r = updated)
  ∧ (User.role user = "admin" → r = updated).
Proof.
  intros Ht Hs Hv r updated. subst r updated. split; [|split].
  - intros Hr Ha Hb. apply (updateTaskStatus_denied _ _ _ _ task); try done.
    apply not_true_is_false. rewrite isAssigned_iff. by intros [?|?].
  - intros Hr Hab. apply (updateTaskStatus_applied _ _ _ _ task); try done.
    right. by apply isAssigned_iff.
  - intros Hr. apply (updateTaskStatus_applied _ _ _ _ task); try done.
    left. by rewrite Hr.
Qed.

Lemma status_update_permission_witness :
  updateTaskStatus (mkDb [W1; W2] {[7 := reassigned_task]}) (User.mk 3 "agent") 7
    (Some "completed")
  = (mkDb [W1; W2] {[7 := reassigned_task]},
     message 403 "You are not assigned to this task").
Proof.
  refine (proj1 (status_update_permission (mkDb [W1; W2] {[7 := reassigned_task]})
                   (User.mk 3 "agent") 7 "completed" reassigned_task _ _ _) _ _ _).
  - reflexivity.
  - unfold allowedStatuses. set_solver.
  - reflexivity.
  - reflexivity.
  - discriminate.
  - discriminate.
Defined.

(** C6, counterexample. With agent 1 the only agent, task 7 is reassigned
    to 9, the id of no agent, and the request is answered 200. *)
Lemma reassign_to_unknown_agent :
  let db := mkDb [W1] {[7 := reassigned_task]} in
  let r := reassignTask db 7 (Some 9) in
  Agent._id <$> Agents db = [1]
  ∧ statusCode r.2 = 200
  ∧ Task.assignedTo <$> Tasks r.1 !! 7 = Some (Some 9).
Proof. vm_compute. done. Qed.

(** C6 (as the code has it). A reassignment of an id that resolves to no
    task is answered 404 "Task not found" and changes nothing; for a stored
    task it sets [assignedTo] to the [newAgentId] of the request, whatever
    the Agent collection holds, and is answered 200. *)
Theorem reassign_targets (db : Db) (id : ObjectId) (newAgentId : option ObjectId) :
  (Tasks db !! id = None →
   reassignTask db id newAgentId = (db, message 404 "Task not found"))
  ∧ (∀ task, Tasks db !! id = Some task → Task.validate task = true →
       reassignTask db id newAgentId
       = (mkDb (Agents db) (<[id := Task.set_assignedTo newAgentId task]> (Tasks db)),
          reassigned id (Task.set_assignedTo newAgentId task)))
  ∧ (∀ agents',
       (reassignTask (mkDb agents' (Tasks db)) id newAgentId).2
       = (reassignTask db id newAgentId).2
       ∧ Tasks (reassignTask (mkDb agents' (Tasks db)) id newAgentId).1
         = Tasks (reassignTask db id newAgentId).1).
Proof.
  split; [|split].
  - intros Ht. unfold reassignTask. by rewrite Ht.
  - intros task. apply reassignTask_applied.
  - intros agents'. unfold reassignTask. cbn [Tasks].
    destruct (Tasks db !! id) as [task|]; [|done].
    by destruct (save _ _ _).
Qed.

Lemma reassign_targets_witness :
  reassignTask (mkDb [W1] {[7 := reassigned_task]}) 8 (Some 1)
  = (mkDb [W1] {[7 := reassigned_task]}, message 404 "Task not found").
Proof.
  apply (proj1 (reassign_targets (mkDb [W1] {[7 := reassigned_task]}) 8 (Some 1))).
  reflexivity.
Defined.

(** C8. A successful reassignment changes the [assignedTo] of the one task
    and no other field of it, in particular not its [status]; a successful
    status update changes the [status] of the one task and no other field
    of it, in particular not its [assignedTo]; every other task, and the
    Agent collection, are as before. *)
Theorem lifecycle_frame (db : Db) :
  (∀ id newAgentId,
     let r := reassignTask db id newAgentId in
     statusCode r.2 = 200 →
     Agents r.1 = Agents db
     ∧ (∀ i, i ≠ id → Tasks r.1 !! i = Tasks db !! i)
     ∧ ∃ t t', Tasks db !! id = Some t ∧ Tasks r.1 !! id = Some t'
               ∧ Task.assignedTo t' = newAgentId
               ∧ same_but_assignedTo t t')
  ∧ (∀ user taskId status,
       let r := updateTaskStatus db user taskId status in
       statusCode r.2 = 200 →
       Agents r.1 = Agents db
       ∧ (∀ i, i ≠ taskId → Tasks r.1 !! i = Tasks db !! i)
       ∧ ∃ t t', Tasks db !! taskId = Some t ∧ Tasks r.1 !! taskId = Some t'
                 ∧ Some (Task.status t') = status
                 ∧ same_but_status t t').
Proof.
  split.
  - intros id newAgentId r H200. subst r.
    apply reassignTask_200 in H200 as (task & Ht & ->). cbn [Agents Tasks].
    split; [done|]. split.
    + intros i Hi. by rewrite lookup_insert_ne.
    + exists task, (Task.set_assignedTo newAgentId task).
      rewrite lookup_insert_eq. by repeat split.
  - intros user taskId status r H200. subst r.
    apply updateTaskStatus_200 in H200 as (s & task & -> & Ht & ->).
    cbn [Agents Tasks]. split; [done|]. split.
    + intros i Hi. by rewrite lookup_insert_ne.
    + exists task, (Task.set_status s task).
      rewrite lookup_insert_eq. by repeat split.
Qed.

Lemma lifecycle_frame_witness :
  let r := reassignTask (mkDb [W1; W2] {[7 := reassigned_task]}) 7 (Some 2) in
  statusCode r.2 = 200
  ∧ ∃ t t', Tasks (mkDb [W1; W2] {[7 := reassigned_task]}) !! 7 = Some t
            ∧ Tasks r.1 !! 7 = Some t'
            ∧ Task.assignedTo t' = Some 2
            ∧ same_but_assignedTo t t'.
Proof.
  assert (H200 : statusCode
            (reassignTask (mkDb [W1; W2] {[7 := reassigned_task]}) 7 (Some 2)).2 = 200)
    by reflexivity.
  split; [exact H200|].
  destruct (proj1 (lifecycle_frame (mkDb [W1; W2] {[7 := reassigned_task]}))
              7 (Some 2) H200) as (_ & _ & H).
  exact H.
Defined.

(** ** Finalization *)

Lemma finalize_lookup (coll : gmap ObjectId Task.t) (i : ObjectId) :
  (updateMany (λ x, negb (Task.isFinalized x)) (Task.set_isFinalized true) coll).1 !! i
  = (λ t, if Task.isFinalized t then t else Task.set_isFinalized true t)
      <$> coll !! i.
Proof.
  unfold updateMany. cbn [fst]. rewrite lookup_fmap.
  destruct (coll !! i) as [t|]; [|done]. cbn. by destruct (Task.isFinalized t).
Qed.

Lemma finalize_twice (coll : gmap ObjectId Task.t) :
  let sweep := updateMany (λ x, negb (Task.isFinalized x)) (Task.set_isFinalized true) in
  (sweep (sweep coll).1).1 = (sweep coll).1 ∧ (sweep (sweep coll).1).2 = 0.
Proof.
  intros sweep. subst sweep. split.
  - apply map_eq. intros i. rewrite !finalize_lookup.
    destruct (coll !! i) as [t|]; [|done]. cbn.
    by destruct (Task.isFinalized t) eqn:Hf; cbn; rewrite ?Hf.
  - unfold updateMany at 1. cbn [snd].
    apply map_size_empty_iff, map_empty_filter.
    intros i t Hi. cbn. rewrite finalize_lookup in Hi.
    destruct (coll !! i) as [t0|]; [|done]. cbn in Hi. injection Hi as <-.
    by destruct (Task.isFinalized t0) eqn:Hf; cbn; rewrite ?Hf.
Qed.

(** C9, counterexample. One task awaits finalization; the sweep modifies
    it, and the response is the fixed message: it has no [finalizedCount],
    nor a count under another name. *)
Lemma finalize_reports_no_count :
  let db := mkDb [W1] {[7 := reassigned_task]} in
  let r := finalizeAssignments db in
  (updateMany (λ x, negb (Task.isFinalized x)) (Task.set_isFinalized true) (Tasks db)).2 = 1
  ∧ json r.2 = JObj [("message", JStr "All tasks finalized successfully")]
  ∧ field "finalizedCount" (json r.2) = None.
Proof. vm_compute. done. Qed.

(** C9 (as the code has it). The sweep sets [isFinalized] on the tasks
    where it is false and changes nothing else; the response is the fixed
    message, without a count; a second sweep right after the first modifies
    no task and leaves the collection as it is. *)
Theorem finalize_sweep (db : Db) :
  let r := finalizeAssignments db in
  Agents r.1 = Agents db
  ∧ (∀ i, Tasks r.1 !! i
          = (λ t, if Task.isFinalized t then t else Task.set_isFinalized true t)
              <$> Tasks db !! i)
  ∧ (∀ i t, Tasks db !! i = Some t →
       ∃ t', Tasks r.1 !! i = Some t' ∧ Task.isFinalized t' = true
             ∧ same_but_isFinalized t t')
  ∧ r.2 = message 200 "All tasks finalized successfully"
  ∧ field "finalizedCount" (json r.2) = None
  ∧ finalizeAssignments r.1 = r
  ∧ (updateMany (λ x, negb (Task.isFinalized x)) (Task.set_isFinalized true)
       (Tasks r.1)).2 = 0.
Proof.
  intros r. subst r. unfold finalizeAssignments. cbn [fst snd Agents Tasks].
  split; [done|]. split; [apply finalize_lookup|]. split; [|split; [done|]].
  - intros i t Hi. rewrite finalize_lookup, Hi. cbn.
    destruct (Task.isFinalized t) eqn:Hf; eexists; (split; [done|]);
      by repeat split.
  - split; [done|].
    destruct (finalize_twice (Tasks db)) as [H1 H2]. cbn zeta in H1, H2.
    split; [by rewrite H1|done].
Qed.

(** ** The legacy reference *)

(** C10. For an agent, the permission check passes exactly when the
    agent's id is the task's [assignedTo] or its [agentId]; a reassignment
    writes [assignedTo] and leaves [agentId] and every other field; so the
    agent a task was drafted for can still set its status after the task has
    been reassigned to someone else: the update is answered 200 with the
    task, and the task is stored with the new status, the new [assignedTo],
    the old [agentId] and its other fields as they were, next to the other
    tasks and the agents, which stay. *)
Theorem stale_agentId_permission :
  (∀ task user,
     isAssigned task user = true
     ↔ Task.assignedTo task = Some (User.id user)
       ∨ Task.agentId task = Some (User.id user))
  ∧ (∀ db user taskId status task,
       Tasks db !! taskId = Some task → status ∈ allowedStatuses →
       User.role user = "agent" →
       (updateTaskStatus db user taskId (Some status)
        = (db, mkResponse 403
                 (JObj [("message", JStr "You are not assigned to this task")]))
        ↔ ¬ (Task.assignedTo task = Some (User.id user)
             ∨ Task.agentId task = Some (User.id user))))
  ∧ (∀ db id task w1 w2 status,
       Tasks db !! id = Some task → Task.validate task = true →
       Task.agentId task = Some w1 → status ∈ allowedStatuses →
       let db' := (reassignTask db id (Some w2)).1 in
       let r := updateTaskStatus db' (User.mk w1 "agent") id (Some status) in
       Tasks db' !! id
       = Some (Task.mk (Task.firstName task) (Task.phone task) (Task.notes task)
                 (Some w1) (Some w2) (Task.status task) (Task.isFinalized task))
       ∧ r.2 = mkResponse 200
                 (JObj [("message", JStr "Task status updated successfully");
                        ("task",
                         JObj [("_id", JId id);
                               ("firstName", JStr (Task.firstName task));
                               ("phone", JStr (Task.phone task));
                               ("notes", JStr (Task.notes task));
                               ("agentId", JId w1);
                               ("assignedTo", JId w2);
                               ("status", JStr status);
                               ("isFinalized", JBool (Task.isFinalized task))])])
       ∧ Tasks r.1 !! id
         = Some (Task.mk (Task.firstName task) (Task.phone task) (Task.notes task)
                   (Some w1) (Some w2) status (Task.isFinalized task))
       ∧ (∀ j, j ≠ id → Tasks r.1 !! j = Tasks db !! j)
       ∧ Agents r.1 = Agents db).
Proof.
  split; [apply isAssigned_iff|]. split.
  - intros db user taskId status task Ht Hs Hr.
    rewrite <- isAssigned_iff. split.
    + intros Hresp Ha. unfold updateTaskStatus, save in Hresp.
      rewrite bool_decide_eq_true_2, Ht, Hr, Ha in Hresp by done.
      cbn in Hresp. destruct (Task.validate _); discriminate Hresp.
    + intros Ha. apply (updateTaskStatus_denied _ _ _ _ task); try done.
      by apply not_true_is_false.
  - intros db id task w1 w2 status Ht Hv Hw1 Hs db' r. subst r db'.
    rewrite (reassignTask_applied db id (Some w2) task Ht Hv). cbn [fst Tasks].
    rewrite (updateTaskStatus_applied _ _ id status (Task.set_assignedTo (Some w2) task));
      [|by cbn [Tasks]; rewrite lookup_insert_eq|done|done
       |by right; apply isAssigned_iff; right].
    cbn [fst snd Tasks Agents]. rewrite !lookup_insert_eq.
    unfold Task.set_assignedTo, Task.set_status, status_updated, Task_json.
    cbn. rewrite Hw1. cbn. repeat (split; [done|]). split; [|done].
    intros j Hj. by rewrite !lookup_insert_ne.
Qed.

Lemma stale_agentId_permission_witness :
  let db' := (reassignTask (mkDb [W1; W2] {[7 := drafted_task]}) 7 (Some 1)).1 in
  let r := updateTaskStatus db' (User.mk 2 "agent") 7 (Some "completed") in
  statusCode r.2 = 200
  ∧ (∃ t, Tasks r.1 !! 7 = Some t
          ∧ Task.status t = "completed"
          ∧ Task.assignedTo t = Some 1
          ∧ Task.agentId t = Some 2).
Proof.
  assert (H7 : ({[7 := drafted_task]} : gmap ObjectId Task.t) !! 7 = Some drafted_task)
    by reflexivity.
  assert (Hs : "completed" ∈ allowedStatuses) by (unfold allowedStatuses; set_solver).
  destruct (proj2 (proj2 stale_agentId_permission)
              (mkDb [W1; W2] {[7 := drafted_task]}) 7 drafted_task 2 1 "completed"
              H7 eq_refl eq_refl Hs) as (_ & Hresp & Hstored & _).
  split; [by rewrite Hresp|].
  eexists. split; [exact Hstored|]. done.
Defined.

(** ** The scenarios of the round-robin rule *)

Lemma round_robin_draft_witness :
  ∃ l : list Json,
    draftUpload (mkDb [W1; W2] ∅) (Some five_rows)
    = Responded (mkResponse 200 (JObj [("total", JNum 5); ("draft", JArr l)]))
    ∧ length l = 5.
Proof.
  destruct (round_robin_draft (mkDb [W1; W2] ∅) five_rows _
              (yields_csv five_rows eq_refl eq_refl))
    as (l & Hresp & Hlen & _).
  - cbn. lia.
  - exists l. split; [exact Hresp|exact Hlen].
Defined.

Example five_rows_two_agents :
  (λ draft : list Draft.t, Draft.assignedTo <$> draft)
    <$> make_draft [W1; W2] (omap csv_row (csv_rows (buffer five_rows)))
  = Some [1; 2; 1; 2; 1].
Proof. vm_compute. done. Qed.

Example two_rows_one_agent :
  let file := csv_file [row [("FirstName", "Ann"); ("Phone", "555-1111"); ("Notes", "")];
                        row [("FirstName", "Bob"); ("Phone", "555-2222"); ("Notes", "urgent")]] in
  draftUpload (mkDb [W1] ∅) (Some file)
  = Responded (draft_response [paired (Candidate.mk "Ann" "555-1111" "") W1;
                               paired (Candidate.mk "Bob" "555-2222" "urgent") W1]).
Proof. vm_compute. done. Qed.

Example confirm_empty_list :
  confirmDraft (mkDb [W1] ∅) (Some []) = (mkDb [W1] ∅, message 400 "No tasks provided.").
Proof. reflexivity. Qed.

(** * Further properties of the controller and its callers *)

(** ** Reads *)

Lemma elem_of_find (query : Task.t → bool) (coll : gmap ObjectId Task.t)
    (i : ObjectId) (t : Task.t) :
  (i, t) ∈ find query coll ↔ coll !! i = Some t ∧ query t = true.
Proof.
  unfold find. rewrite list_elem_of_filter, elem_of_map_to_list. cbn. tauto.
Qed.

Lemma updateTaskStatus_403_iff (db : Db) (user : User.t) (taskId : ObjectId)
    (status : string) (task : Task.t) :
  Tasks db !! taskId = Some task → status ∈ allowedStatuses →
  User.role user = "agent" →
  updateTaskStatus db user taskId (Some status)
  = (db, message 403 "You are not assigned to this task")
  ↔ isAssigned task user = false.
Proof.
  intros Ht Hs Hr. split.
  - intros Hresp. apply not_true_is_false. intros Ha.
    unfold updateTaskStatus, save in Hresp.
    rewrite bool_decide_eq_true_2, Ht, Hr, Ha in Hresp by done.
    cbn in Hresp. destruct (Task.validate _); discriminate Hresp.
  - by apply updateTaskStatus_denied.
Qed.

Lemma listed_in_getAllTasks (db : Db) (a : option ObjectId) (id : ObjectId) :
  listed_in (getAllTasks db a) id
  ↔ ∃ t, Tasks db !! id = Some t
         ∧ match a with
           | Some w => Task.agentId t = Some w
           | None => True
           end.
Proof.
  unfold listed_in, getAllTasks. cbn [json]. split.
  - intros (l & j & [= <-] & Hj & Hid).
    apply list_elem_of_fmap in Hj as ([i t] & -> & Hin).
    cbn in Hid. injection Hid as ->.
    apply elem_of_find in Hin as [Ht Hq]. exists t. split; [done|].
    destruct a as [w|]; [by apply same_id_iff|done].
  - intros (t & Ht & Hq). eexists _, _. split; [reflexivity|]. split.
    + apply list_elem_of_fmap. exists (id, t). split; [reflexivity|].
      apply elem_of_find. split; [done|].
      destruct a as [w|]; [by apply same_id_iff|done].
    + reflexivity.
Qed.

(** X3. The admin's list filtered by agent goes by the legacy [agentId]:
    after a task drafted for agent w1 has been reassigned to w2, it is
    still listed under w1 and it is not listed under w2. *)
Theorem agent_filter_follows_agentId (db : Db) (id : ObjectId) (t : Task.t)
    (w1 w2 : ObjectId) :
  Tasks db !! id = Some t → Task.validate t = true →
  Task.agentId t = Some w1 → w1 ≠ w2 →
  let db' := (reassignTask db id (Some w2)).1 in
  Task.assignedTo <$> Tasks db' !! id = Some (Some w2)
  ∧ listed_in (getAllTasks db' (Some w1)) id
  ∧ ¬ listed_in (getAllTasks db' (Some w2)) id.
Proof.
  intros Ht Hv Ha Hne db'. subst db'.
  rewrite (reassignTask_applied db id (Some w2) t Ht Hv). cbn [fst].
  rewrite !listed_in_getAllTasks. cbn [Tasks]. rewrite lookup_insert_eq.
  split; [done|]. split.
  - by eexists.
  - intros (t' & [= <-] & Ha'). cbn in Ha'. congruence.
Qed.

Lemma agent_filter_follows_agentId_witness :
  listed_in
    (getAllTasks (reassignTask (mkDb [W1; W2] {[7 := drafted_task]}) 7 (Some 1)).1 (Some 2))
    7.
Proof.
  refine (proj1 (proj2 (agent_filter_follows_agentId
                          (mkDb [W1; W2] {[7 := drafted_task]}) 7 drafted_task 2 1
                          _ _ _ _))); [reflexivity|reflexivity|reflexivity|lia].
Defined.

(** ** Upload filter *)

(** X4. The upload middleware and the handler agree on the file types:
    with at least one agent, the handler answers "Unsupported file type"
    exactly for the files the [fileFilter] refuses, so behind the filter
    that answer is never given. *)
Theorem fileFilter_agrees_with_handler (db : Db) (file : File) :
  Agents db ≠ [] →
  (draftUpload db (Some file) = Responded (message 400 "Unsupported file type")
   ↔ fileFilter file = false)
  ∧ (∀ user, (handler db user (POST_draft_upload (Some file))).2
              ≠ Responded (message 400 "Unsupported file type")).
Proof.
  intros Hne.
  assert (Hiff : draftUpload db (Some file)
                 = Responded (message 400 "Unsupported file type")
                 ↔ fileFilter file = false).
  { unfold draftUpload, fileFilter.
    destruct (Agents db) as [|a0 rest] eqn:Hag; [done|]. cbn [length Nat.eqb].
    rewrite bool_decide_eq_false, !elem_of_cons, elem_of_nil.
    destruct (String.eqb_spec (mimetype file) xlsx_type) as [Hx|Hx].
    { cbn. split; [|tauto].
      destruct (sheet_to_json (buffer file)); [done|].
      by destruct (make_draft _ _). }
    destruct (String.eqb_spec (mimetype file) xls_type) as [Hs|Hs].
    { cbn. split; [|tauto].
      destruct (sheet_to_json (buffer file)); [done|].
      by destruct (make_draft _ _). }
    cbn. destruct (String.eqb_spec (mimetype file) csv_type) as [Hc|Hc].
    { split; [|tauto]. by destruct (make_draft _ _). }
    split; [tauto|done]. }
  split; [done|]. intros user. cbn [handler].
  destruct (fileFilter file) eqn:Hf; cbn [snd]; [|done].
  rewrite Hiff. congruence.
Qed.

Lemma fileFilter_agrees_with_handler_witness :
  draftUpload (mkDb [W1] ∅) (Some (mkFile (mkBuffer (inl "bad") []) "application/pdf"))
  = Responded (message 400 "Unsupported file type").
Proof.
  assert (Hne : Agents (mkDb [W1] ∅) ≠ []) by discriminate.
  apply (proj1 (fileFilter_agrees_with_handler (mkDb [W1] ∅)
                  (mkFile (mkBuffer (inl "bad") []) "application/pdf") Hne)).
  reflexivity.
Defined.

(** ** Authentication *)

Lemma split_without_sep (sep : Ascii.ascii) (s : string) :
  occurs sep s = false → split sep s = [s].
Proof.
  induction s as [|c s IH]; [done|]. cbn [split occurs].
  intros [Hc Hs]%orb_false_iff. rewrite Hc. by rewrite (IH Hs).
Qed.

Lemma split_at_sep (sep : Ascii.ascii) (a b : string) :
  occurs sep a = false →
  split sep (a +:+ String sep b) = a :: split sep b.
Proof.
  induction a as [|c a IH].
  - intros _. change ("" +:+ String sep b) with (String sep b).
    cbn [split]. by rewrite Ascii.eqb_refl.
  - cbn [occurs]. intros [Hc Ha]%orb_false_iff.
    change (String c a +:+ String sep b) with (String c (a +:+ String sep b)).
    cbn [split]. rewrite Hc. by rewrite (IH Ha).
Qed.

Lemma prefix_append (s rest : string) : String.prefix s (s +:+ rest) = true.
Proof.
  induction s as [|c s IH]; [by destruct rest|].
  change (String c s +:+ rest) with (String c (s +:+ rest)). cbn [String.prefix].
  by destruct (Ascii.ascii_dec c c).
Qed.

Lemma protect_bearer (verify : string → option User.t) (rest : string) :
  protect verify (Some ("Bearer " +:+ rest))
  = match head (split space rest) ≫= verify with
    | Some decoded => inr decoded
    | None => inl (message 401 "Invalid token")
    end.
Proof.
  unfold protect.
  change ("Bearer " +:+ rest) with ("Bearer" +:+ String space rest).
  rewrite split_at_sep by reflexivity. cbn [String.prefix].
  change ("Bearer" +:+ String space rest) with ("Bearer " +:+ rest).
  rewrite prefix_append.
  cbn [negb]. by destruct (split space rest).
Qed.

(** X5. The header the front end's HTTP client builds for a stored token
    is read back by [protect]: for a non-empty token without a space the
    verified text is the token itself; without a stored token the request
    is answered 401 "Unauthorized"; and of a header with further spaces
    only the text up to the next space is verified. *)
Theorem bearer_round_trip (verify : string → option User.t) (token : string) :
  token ≠ "" → occurs space token = false →
  protect verify (Authorization (Some token))
  = match verify token with
    | Some decoded => inr decoded
    | None => inl (message 401 "Invalid token")
    end
  ∧ protect verify (Authorization None) = inl (message 401 "Unauthorized")
  ∧ protect verify (Authorization (Some "")) = inl (message 401 "Unauthorized")
  ∧ (∀ trailing,
       protect verify (Some ("Bearer " +:+ token +:+ String space trailing))
       = protect verify (Some ("Bearer " +:+ token))).
Proof.
  intros Hne Hsp. split; [|split; [done|split; [done|]]].
  - unfold Authorization, JS.truthy_str.
    apply String.eqb_neq in Hne. rewrite Hne. cbn [negb default from_option id].
    rewrite protect_bearer, (split_without_sep space token Hsp). cbn.
    by destruct (verify token).
  - intros trailing. rewrite !protect_bearer.
    by rewrite (split_at_sep space token trailing Hsp), (split_without_sep space token Hsp).
Qed.

Lemma bearer_round_trip_witness :
  protect toy_verify (Authorization (Some "agent2-token")) = inr (User.mk 2 "agent").
Proof.
  refine (proj1 (bearer_round_trip toy_verify "agent2-token" _ _)); [discriminate|reflexivity].
Defined.

(** ** The router *)

Lemma updateTaskStatus_cases (db : Db) (user : User.t) (taskId : ObjectId)
    (status : option string) :
  (updateTaskStatus db user taskId status).1 = db
  ∨ ∃ s t,
      status = Some s ∧ s ∈ allowedStatuses ∧ Tasks db !! taskId = Some t
      ∧ (User.role user = "agent" → isAssigned t user = true)
      ∧ Task.validate (Task.set_status s t) = true
      ∧ (updateTaskStatus db user taskId status).1
        = mkDb (Agents db) (<[taskId := Task.set_status s t]> (Tasks db)).
Proof.
  unfold updateTaskStatus, save.
  destruct status as [s|]; [|by left].
  destruct (bool_decide (s ∈ allowedStatuses)) eqn:Hs; [|by left].
  apply bool_decide_eq_true in Hs. cbn [negb].
  destruct (Tasks db !! taskId) as [t|]; [|by left].
  destruct (String.eqb_spec (User.role user) "agent") as [Hr|Hr]; cbn [andb].
  - destruct (isAssigned t user) eqn:Ha; [|by left]. cbn [negb].
    destruct (Task.validate (Task.set_status s t)) eqn:Hv; [|by left].
    right. by exists s, t.
  - destruct (Task.validate (Task.set_status s t)) eqn:Hv; [|by left].
    right. by exists s, t.
Qed.

Lemma reassignTask_cases (db : Db) (id : ObjectId) (newAgentId : option ObjectId) :
  (reassignTask db id newAgentId).1 = db
  ∨ ∃ t, Tasks db !! id = Some t ∧ Task.validate t = true
         ∧ (reassignTask db id newAgentId).1
           = mkDb (Agents db) (<[id := Task.set_assignedTo newAgentId t]> (Tasks db)).
Proof.
  unfold reassignTask, save.
  destruct (Tasks db !! id) as [t|]; [|by left].
  change (Task.validate (Task.set_assignedTo newAgentId t)) with (Task.validate t).
  destruct (Task.validate t) eqn:Hv; [|by left].
  right. by exists t.
Qed.

Lemma confirmDraft_cases (db : Db) (tasks : option (list Entry.t)) :
  (confirmDraft db tasks).1 = db
  ∨ ∃ entries valid,
      tasks = Some entries ∧ mapM Task_of (process <$> entries) = Some valid
      ∧ (confirmDraft db tasks).1 = mkDb (Agents db) (store_all valid (Tasks db)).1.
Proof.
  unfold confirmDraft, insertMany.
  destruct tasks as [entries|]; [|by left].
  destruct (length entries =? 0); [by left|].
  destruct (mapM Task_of (process <$> entries)) as [valid|] eqn:Hv; [|by left].
  cbn [mbind option_bind].
  destruct (store_all valid (Tasks db)) as [coll inserted] eqn:Hst.
  right. exists entries, valid. by rewrite Hst.
Qed.

(** X6. Without a verified token every route answers 401 and changes
    nothing; a verified caller whose role is not the route's is answered
    403 "only <role>s can access this" and nothing changes. *)
Theorem router_gates (verify : string → option User.t) (db : Db)
    (authorization : option string) (r : Route) :
  (∀ res, protect verify authorization = inl res →
     statusCode res = 401
     ∧ taskRoutes verify db authorization r = (db, Responded res))
  ∧ (∀ user role, protect verify authorization = inr user →
       route_role r = Some role → User.role user ≠ role →
       taskRoutes verify db authorization r
       = (db, Responded (message 403 ("only " +:+ role +:+ "s can access this")))).
Proof.
  split.
  - intros res Hp. unfold taskRoutes. rewrite Hp. split; [|done].
    unfold protect in Hp. destruct authorization as [h|]; [|by injection Hp as <-].
    destruct (negb _); [by injection Hp as <-|].
    destruct (_ ≫= verify); [done|by injection Hp as <-].
  - intros user role Hp Hrole Hne. unfold taskRoutes. rewrite Hp, Hrole.
    cbn [mbind option_bind]. unfold requireRole.
    apply String.eqb_neq in Hne. by rewrite Hne.
Qed.

Lemma router_gates_witness :
  taskRoutes toy_verify (mkDb [W1; W2] {[7 := drafted_task]})
    (Some "Bearer agent2-token") (PATCH_task_assign 7 (Some 2))
  = (mkDb [W1; W2] {[7 := drafted_task]},
     Responded (message 403 "only admins can access this")).
Proof.
  refine (proj2 (router_gates toy_verify (mkDb [W1; W2] {[7 := drafted_task]})
                   (Some "Bearer agent2-token") (PATCH_task_assign 7 (Some 2)))
            (User.mk 2 "agent") "admin" _ _ _); [reflexivity|reflexivity|discriminate].
Defined.

(** X7. What a caller who is not an admin can change through the router:
    nothing, except that an agent may set the status of one task whose
    [assignedTo] or [agentId] is the agent, to an allowed status.  Agents are
    never changed, no task is created, reassigned or finalized. *)
Theorem non_admin_confined (verify : string → option User.t) (db : Db)
    (authorization : option string) (r : Route) (user : User.t) :
  protect verify authorization = inr user →
  User.role user ≠ "admin" →
  let db' := (taskRoutes verify db authorization r).1 in
  db' = db
  ∨ ∃ id s t,
      r = PATCH_agent_status id (Some s) ∧ User.role user = "agent"
      ∧ s ∈ allowedStatuses ∧ Tasks db !! id = Some t
      ∧ (Task.assignedTo t = Some (User.id user) ∨ Task.agentId t = Some (User.id user))
      ∧ db' = mkDb (Agents db) (<[id := Task.set_status s t]> (Tasks db)).
Proof.
  intros Hp Hr db'. subst db'. unfold taskRoutes. rewrite Hp.
  assert (Hadm : requireRole "admin" user
                 = Some (message 403 "only admins can access this")).
  { unfold requireRole. apply String.eqb_neq in Hr. by rewrite Hr. }
  destruct r as [a|f|ts|id w| |id st| |id st| ]; cbn [route_role mbind option_bind];
    rewrite ?Hadm; try (by left).
  - unfold requireRole. destruct (negb _); by left.
  - unfold requireRole.
    destruct (String.eqb_spec (User.role user) "agent") as [Hag|Hag]; cbn [negb];
      [|by left].
    cbn [handler fst].
    destruct (updateTaskStatus_cases db user id st)
      as [->|(s & t & -> & Hs & Ht & Ha & _ & ->)]; [by left|].
    right. exists id, s, t. repeat (split; [done|]). split; [|done].
    by apply isAssigned_iff, Ha.
Qed.

Lemma non_admin_confined_witness :
  (taskRoutes toy_verify (mkDb [W1; W2] {[7 := drafted_task]})
     (Some "Bearer agent2-token") PATCH_task_finalize).1
  = mkDb [W1; W2] {[7 := drafted_task]}.
Proof.
  assert (Hr : User.role (User.mk 2 "agent") ≠ "admin") by discriminate.
  destruct (non_admin_confined toy_verify (mkDb [W1; W2] {[7 := drafted_task]})
              (Some "Bearer agent2-token") PATCH_task_finalize (User.mk 2 "agent")
              eq_refl Hr) as [H|(id & s & t & Hroute & _)].
  - exact H.
  - discriminate Hroute.
Defined.

(** ** What every run of requests keeps *)

Lemma kept_refl (t : Task.t) : kept t t.
Proof. by repeat split. Qed.

Lemma kept_trans (t1 t2 t3 : Task.t) : kept t1 t2 → kept t2 t3 → kept t1 t3.
Proof.
  intros (?&?&?&?&?) (?&?&?&?&?). repeat split; try congruence. auto.
Qed.

Lemma Task_of_valid (d : NewTask.t) (t : Task.t) :
  Task_of d = Some t → Task.validate t = true.
Proof.
  unfold Task_of.
  destruct (NewTask.firstName d), (NewTask.phone d); try done.
  destruct (Task.validate _) eqn:Hv; [|done]. by intros [= <-].
Qed.

Lemma store_all_valid (valid : list Task.t) (coll : gmap ObjectId Task.t) :
  Forall (λ t, Task.validate t = true) valid →
  (∀ i t, coll !! i = Some t → Task.validate t = true) →
  ∀ i t, (store_all valid coll).1 !! i = Some t → Task.validate t = true.
Proof.
  intros Hall Hcoll i t Hi. apply store_all_new in Hi as [Hi|Hi]; [eauto|].
  by eapply Forall_forall in Hall.
Qed.

Lemma handler_keeps (db : Db) (user : User.t) (r : Route) :
  let db' := (handler db user r).1 in
  Agents db' = Agents db
  ∧ (valid_store db → valid_store db')
  ∧ (∀ i t, Tasks db !! i = Some t → ∃ t', Tasks db' !! i = Some t' ∧ kept t t').
Proof.
  assert (Hsame : ∀ d : Db, d = db →
            Agents d = Agents db ∧ (valid_store db → valid_store d)
            ∧ (∀ i t, Tasks db !! i = Some t → ∃ t', Tasks d !! i = Some t' ∧ kept t t')).
  { intros d ->. split; [done|]. split; [done|].
    intros i t Ht. exists t. split; [done|apply kept_refl]. }
  destruct r as [a|f|ts|id w| |id st| |id st| ]; cbn [handler fst]; try by apply Hsame.
  - apply Hsame. destruct f as [f|]; [|done]. by destruct (fileFilter f).
  - destruct (confirmDraft_cases db ts) as [->|(entries & valid & -> & Hv & ->)];
      [by apply Hsame|].
    cbn [Agents Tasks]. split; [done|]. split.
    + intros Hvalid i t. cbn [Tasks]. apply store_all_valid; [|exact Hvalid].
      apply mapM_Some_1 in Hv. apply Forall_forall. intros t' Hin.
      apply list_elem_of_lookup in Hin as [j Hj].
      destruct (Forall2_lookup_r _ _ _ _ _ Hv Hj) as (d & _ & Hof).
      by eapply Task_of_valid.
    + intros i t Ht. exists t. split; [by apply store_all_old|apply kept_refl].
  - destruct (reassignTask_cases db id w) as [->|(t0 & Ht0 & Hv0 & ->)];
      [by apply Hsame|].
    cbn [Agents Tasks]. split; [done|]. split.
    + intros Hvalid i t. cbn [Tasks]. rewrite lookup_insert.
      case_decide; [|apply Hvalid].
      by intros [= <-].
    + intros i t Ht. rewrite lookup_insert. case_decide; [|by eauto using kept_refl].
      simplify_eq. eexists. split; [done|]. by repeat split.
  - unfold finalizeAssignments. cbn [fst Agents Tasks]. split; [done|]. split.
    + intros Hvalid i t. cbn [Tasks]. rewrite finalize_lookup.
      destruct (Tasks db !! i) as [t0|] eqn:Ht0; [|done]. cbn. intros [= <-].
      specialize (Hvalid i t0 Ht0). by destruct (Task.isFinalized t0).
    + intros i t Ht. rewrite finalize_lookup, Ht. cbn. eexists. split; [done|].
      destruct (Task.isFinalized t) eqn:Hf; by repeat split.
  - destruct (updateTaskStatus_cases db user id st)
      as [->|(s & t0 & -> & Hs & Ht0 & _ & Hv0 & ->)]; [by apply Hsame|].
    cbn [Agents Tasks]. split; [done|]. split.
    + intros Hvalid i t. cbn [Tasks]. rewrite lookup_insert.
      case_decide; [|apply Hvalid].
      by intros [= <-].
    + intros i t Ht. rewrite lookup_insert. case_decide; [|by eauto using kept_refl].
      simplify_eq. eexists. split; [done|]. by repeat split.
  - destruct (updateTaskStatus_cases db user id st)
      as [->|(s & t0 & -> & Hs & Ht0 & _ & Hv0 & ->)]; [by apply Hsame|].
    cbn [Agents Tasks]. split; [done|]. split.
    + intros Hvalid i t. cbn [Tasks]. rewrite lookup_insert.
      case_decide; [|apply Hvalid].
      by intros [= <-].
    + intros i t Ht. rewrite lookup_insert. case_decide; [|by eauto using kept_refl].
      simplify_eq. eexists. split; [done|]. by repeat split.
Qed.

Lemma taskRoutes_keeps (verify : string → option User.t) (db : Db)
    (authorization : option string) (r : Route) :
  let db' := (taskRoutes verify db authorization r).1 in
  Agents db' = Agents db
  ∧ (valid_store db → valid_store db')
  ∧ (∀ i t, Tasks db !! i = Some t → ∃ t', Tasks db' !! i = Some t' ∧ kept t t').
Proof.
  unfold taskRoutes.
  assert (Hsame : Agents db = Agents db ∧ (valid_store db → valid_store db)
            ∧ (∀ i t, Tasks db !! i = Some t → ∃ t', Tasks db !! i = Some t' ∧ kept t t')).
  { split; [done|]. split; [done|].
    intros i t Ht. exists t. split; [done|apply kept_refl]. }
  destruct (protect verify authorization) as [res|user]; [exact Hsame|].
  destruct (route_role r ≫= _); [exact Hsame|]. apply handler_keeps.
Qed.

Lemma run_keeps (verify : string → option User.t) (reqs : list (option string * Route))
    (db : Db) :
  Agents (run verify db reqs) = Agents db
  ∧ (valid_store db → valid_store (run verify db reqs))
  ∧ (∀ i t, Tasks db !! i = Some t →
       ∃ t', Tasks (run verify db reqs) !! i = Some t' ∧ kept t t').
Proof.
  revert db. induction reqs as [|[h r] reqs IH]; intros db.
  - split; [done|]. split; [done|]. intros i t Ht. exists t.
    split; [done|apply kept_refl].
  - change (run verify db ((h, r) :: reqs))
      with (run verify (taskRoutes verify db h r).1 reqs).
    pose proof (taskRoutes_keeps verify db h r) as Hstep. cbv zeta in Hstep.
    destruct Hstep as (Ha & Hv & Hk).
    destruct (IH (taskRoutes verify db h r).1) as (Ha' & Hv' & Hk').
    split; [by rewrite Ha', Ha|]. split; [tauto|].
    intros i t Ht. destruct (Hk i t Ht) as (t1 & Ht1 & Hk1).
    destruct (Hk' i t1 Ht1) as (t2 & Ht2 & Hk2).
    exists t2. split; [done|]. by eapply kept_trans.
Qed.

(** X8. Through any run of requests to the task routes, with any headers:
    the Agent collection is untouched, no stored task disappears, and a
    stored task keeps its [firstName], [phone], [notes] and [agentId] and,
    once finalized, stays finalized. *)
Theorem tasks_are_never_lost (verify : string → option User.t) (db : Db)
    (reqs : list (option string * Route)) :
  Agents (run verify db reqs) = Agents db
  ∧ (∀ i t, Tasks db !! i = Some t →
       ∃ t', Tasks (run verify db reqs) !! i = Some t'
             ∧ Task.firstName t' = Task.firstName t ∧ Task.phone t' = Task.phone t
             ∧ Task.notes t' = Task.notes t ∧ Task.agentId t' = Task.agentId t
             ∧ (Task.isFinalized t = true → Task.isFinalized t' = true)).
Proof.
  destruct (run_keeps verify reqs db) as (Ha & _ & Hk). split; [done|].
  intros i t Ht. destruct (Hk i t Ht) as (t' & Ht' & Hkept). by exists t'.
Qed.

Lemma tasks_are_never_lost_witness :
  ∃ t', Tasks (run toy_verify (mkDb [W1; W2] {[7 := drafted_task]})
                 [(Some "Bearer admin-token", PATCH_task_assign 7 (Some 1));
                  (Some "Bearer agent2-token", PATCH_agent_status 7 (Some "completed"));
                  (Some "Bearer admin-token", PATCH_task_finalize)]) !! 7 = Some t'
        ∧ Task.agentId t' = Some 2.
Proof.
  assert (H7 : Tasks (mkDb [W1; W2] {[7 := drafted_task]}) !! 7 = Some drafted_task)
    by reflexivity.
  destruct (proj2 (tasks_are_never_lost toy_verify (mkDb [W1; W2] {[7 := drafted_task]})
              [(Some "Bearer admin-token", PATCH_task_assign 7 (Some 1));
               (Some "Bearer agent2-token", PATCH_agent_status 7 (Some "completed"));
               (Some "Bearer admin-token", PATCH_task_finalize)]) 7 drafted_task H7)
    as (t' & Ht' & _ & _ & _ & Ha & _).
  exists t'. by split.
Defined.

(** X9. A store whose tasks all pass the schema's validators stays so
    through any run of requests; and in such a store a status update of an
    existing task to an allowed status, by an admin or by an agent the task
    refers to, and a reassignment of an existing task, are always answered
    200. *)
Theorem stored_tasks_stay_valid (verify : string → option User.t) (db : Db)
    (reqs : list (option string * Route)) :
  valid_store db →
  let db' := run verify db reqs in
  valid_store db'
  ∧ (∀ user id t s, Tasks db' !! id = Some t → s ∈ allowedStatuses →
       User.role user ≠ "agent" ∨ isAssigned t user = true →
       statusCode (updateTaskStatus db' user id (Some s)).2 = 200)
  ∧ (∀ id t w, Tasks db' !! id = Some t →
       statusCode (reassignTask db' id w).2 = 200).
Proof.
  intros Hvalid db'. subst db'.
  destruct (run_keeps verify reqs db) as (_ & Hv & _). specialize (Hv Hvalid).
  split; [done|]. split.
  - intros user id t s Ht Hs Hperm.
    by rewrite (updateTaskStatus_applied _ user id s t Ht Hs (Hv id t Ht) Hperm).
  - intros id t w Ht. by rewrite (reassignTask_applied _ id w t Ht (Hv id t Ht)).
Qed.

Lemma stored_tasks_stay_valid_witness :
  valid_store
    (run toy_verify (mkDb [W1; W2] ∅)
       [(Some "Bearer admin-token", POST_confirm_draft (Some [stale_entry]))]).
Proof.
  refine (proj1 (stored_tasks_stay_valid toy_verify (mkDb [W1; W2] ∅)
                   [(Some "Bearer admin-token", POST_confirm_draft (Some [stale_entry]))]
                   _)).
  intros i t Ht. cbn [Tasks] in Ht. rewrite lookup_empty in Ht. discriminate Ht.
Defined.

(** ** From draft to commit *)

Lemma Task_of_paired (c : Candidate.t) (a : Agent.t) :
  Task_of (process (entry_of (paired c a)))
  = if negb (String.eqb (Candidate.firstName c) "")
       && negb (String.eqb (Candidate.phone c) "")
    then Some (Task.mk (Candidate.firstName c) (Candidate.phone c) (Candidate.notes c)
                 (Some (Agent._id a)) (Some (Agent._id a)) "pending" false)
    else None.
Proof.
  unfold Task_of, process, entry_of, paired, Task.validate. cbn.
  destruct (String.eqb_spec (Candidate.notes c) "") as [->|Hn]; cbn;
    destruct (String.eqb (Candidate.firstName c) ""),
             (String.eqb (Candidate.phone c) ""); done.
Qed.

Lemma entry_ok_paired (c : Candidate.t) (a : Agent.t) :
  entry_ok (entry_of (paired c a)) = true
  ↔ Candidate.firstName c ≠ "" ∧ Candidate.phone c ≠ "".
Proof.
  unfold entry_ok, entry_of, paired, JS.truthy_str. cbn.
  rewrite andb_true_iff, !negb_true_iff, !String.eqb_neq. done.
Qed.

Lemma posted_Draft_json (d : Draft.t) : posted (Draft_json d) = entry_of d.
Proof. reflexivity. Qed.

(** X10. Posting back the draft of an upload unchanged, as the front end
    does: the [draft] array of the upload's answer is the [tasks] of the
    commit.  If every record of the file has a non-empty name and phone, the
    commit answers 201 with the number of records, keeps the agents and the
    stored tasks, and stores every record, in order, under an id of its own
    that was free: record j with its name, phone and notes, pending, not
    finalized, and the agent at position j mod M in both reference fields;
    nothing else is stored.  If some record has an empty name or phone (a
    row of blanks passes the upload filter), the whole commit is answered
    500 and nothing is stored. *)
Theorem confirming_the_draft (db : Db) (file : File) (results : list Candidate.t) :
  yields file results → results ≠ [] → 1 ≤ length (Agents db) →
  ∃ l : list Json,
    draftUpload db (Some file)
    = Responded (mkResponse 200
                   (JObj [("total", JNum (Z.of_nat (length results)));
                          ("draft", JArr l)]))
    ∧ let r := confirmDraft db (Some (posted <$> l)) in
      (Forall (λ c, Candidate.firstName c ≠ "" ∧ Candidate.phone c ≠ "") results →
         r.2 = mkResponse 201
                 (JObj [("message", JStr "Tasks saved successfully");
                        ("count", JNum (Z.of_nat (length results)))])
         ∧ Agents r.1 = Agents db
         ∧ (∀ i t, Tasks db !! i = Some t → Tasks r.1 !! i = Some t)
         ∧ size (Tasks r.1) = size (Tasks db) + length results
         ∧ ∃ ids : list ObjectId,
             length ids = length results ∧ NoDup ids
             ∧ (∀ i, i ∈ ids → Tasks db !! i = None)
             ∧ (∀ i, is_Some (Tasks r.1 !! i) → is_Some (Tasks db !! i) ∨ i ∈ ids)
             ∧ (∀ j c i, results !! j = Some c → ids !! j = Some i →
                  ∃ a, Agents db !! (j mod length (Agents db)) = Some a
                       ∧ Tasks r.1 !! i
                         = Some (Task.mk (Candidate.firstName c) (Candidate.phone c)
                                   (Candidate.notes c)
                                   (Some (Agent._id a)) (Some (Agent._id a))
                                   "pending" false)))
      ∧ (¬ Forall (λ c, Candidate.firstName c ≠ "" ∧ Candidate.phone c ≠ "") results →
           r.1 = db ∧ statusCode r.2 = 500
           ∧ field "message" (json r.2) = Some (JStr "Server error")).
Proof.
  intros Hy Hres HM.
  assert (Hne : Agents db ≠ []) by (destruct (Agents db); [cbn in HM; lia|done]).
  destruct (draftUpload_yields db file results Hy Hne) as (draft & Hd & Hresp).
  destruct (Agents db) as [|a0 rest] eqn:Hag; [done|].
  set (agents := a0 :: rest) in *.
  rewrite (make_draft_imap agents a0) in Hd by done.
  apply (inj Some) in Hd.
  assert (Hlen : length draft = length results) by (by rewrite <- Hd, length_imap).
  exists (Draft_json <$> draft). split.
  { rewrite Hresp. unfold draft_response. by rewrite Hlen. }
  rewrite <- list_fmap_compose.
  rewrite (list_fmap_ext (posted ∘ Draft_json) entry_of draft)
    by (intros; apply posted_Draft_json).
  assert (Hdne : entry_of <$> draft ≠ []).
  { destruct draft; [by destruct results|done]. }
  assert (Hat : ∀ j d, draft !! j = Some d →
            ∃ c a, results !! j = Some c ∧ agents !! (j mod length agents) = Some a
                   ∧ d = paired c a).
  { intros j d Hj. rewrite <- Hd, list_lookup_imap in Hj.
    destruct (results !! j) as [c|] eqn:Hc; [|done].
    cbn [fmap option_fmap option_map] in Hj.
    assert (Hlt : j mod length agents < length agents)
      by (apply Nat.mod_upper_bound; subst agents; cbn; lia).
    destruct (lookup_lt_is_Some_2 _ _ Hlt) as [a Ha].
    rewrite Ha in Hj. apply (inj Some) in Hj. subst d. by exists c, a. }
  assert (Hok : Forall (λ e, entry_ok e = true) (entry_of <$> draft)
                ↔ Forall (λ c, Candidate.firstName c ≠ "" ∧ Candidate.phone c ≠ "") results).
  { rewrite Forall_fmap, !Forall_lookup. split.
    - intros H j c Hc.
      destruct (lookup_lt_is_Some_2 draft j) as [d Hj].
      { rewrite Hlen. by eapply lookup_lt_Some. }
      destruct (Hat j d Hj) as (c' & a & Hc' & _ & ->).
      specialize (H j _ Hj). cbn in H. apply entry_ok_paired in H. congruence.
    - intros H j d Hj. destruct (Hat j d Hj) as (c & a & Hc & _ & ->).
      cbn. apply entry_ok_paired. by eapply H. }
  cbv zeta. split.
  - intros Hall. apply Hok, validate_entries in Hall as [valid Hv].
    rewrite (confirmDraft_valid db _ valid Hdne Hv). cbn [fst snd Tasks Agents].
    rewrite length_fmap, Hlen. split; [done|]. split; [done|].
    split; [intros i t; apply store_all_old|].
    pose proof (length_mapM _ _ _ Hv) as Hl. rewrite !length_fmap in Hl.
    split; [pose proof (store_all_size valid (Tasks db)) as [-> _]; lia|].
    destruct (store_all_inserted valid (Tasks db)) as (Hdocs & Hnd & Hins & Hdom).
    exists (store_all valid (Tasks db)).2.*1.
    split; [by rewrite length_fmap, <- (length_fmap snd), Hdocs, <- Hl|].
    split; [done|]. split; [|split; [done|]].
    + intros i Hin. apply list_elem_of_fmap in Hin as ([i' t] & -> & Hin).
      apply list_elem_of_lookup in Hin as [j Hj]. by destruct (Hins j i' t Hj).
    + intros j c i Hc Hi. rewrite list_lookup_fmap in Hi.
      destruct ((store_all valid (Tasks db)).2 !! j) as [[i' t]|] eqn:Hj; [|done].
      cbn in Hi. injection Hi as ->.
      destruct (Hins j i t Hj) as [_ Hstored].
      assert (Ht : valid !! j = Some t).
      { rewrite <- Hdocs, list_lookup_fmap, Hj. done. }
      apply mapM_Some_1 in Hv.
      destruct (Forall2_lookup_r _ _ _ _ _ Hv Ht) as (d & Hdl & Hof).
      rewrite !list_lookup_fmap in Hdl.
      destruct (draft !! j) as [dj|] eqn:Hdj; [|done]. cbn in Hdl. injection Hdl as <-.
      destruct (Hat j dj Hdj) as (c' & a & Hc' & Ha & ->).
      assert (c' = c) by congruence. subst c'.
      rewrite Task_of_paired in Hof. destruct (_ && _); [|done].
      injection Hof as <-. exists a. by rewrite Hstored.
  - intros Hbad.
    rewrite (confirmDraft_invalid db (entry_of <$> draft)); [done|done|].
    destruct (mapM Task_of (process <$> (entry_of <$> draft))) eqn:Hv; [|done].
    exfalso. apply Hbad, Hok, validate_entries. by rewrite Hv.
Qed.

Lemma confirming_the_draft_witness :
  ∃ l : list Json,
    draftUpload (mkDb [W1; W2] ∅) (Some five_rows)
    = Responded (mkResponse 200 (JObj [("total", JNum 5); ("draft", JArr l)]))
    ∧ (confirmDraft (mkDb [W1; W2] ∅) (Some (posted <$> l))).2
      = mkResponse 201 (JObj [("message", JStr "Tasks saved successfully");
                              ("count", JNum 5)]).
Proof.
  destruct (confirming_the_draft (mkDb [W1; W2] ∅) five_rows _
              (yields_csv five_rows eq_refl eq_refl))
    as (l & Hresp & Hok & _).
  - discriminate.
  - cbn. lia.
  - exists l. split; [exact Hresp|]. apply Hok.
    repeat (apply Forall_cons; split; [split; discriminate|]). apply Forall_nil_2.
Defined.

(** X11. The commit is not idempotent: posting the same valid batch twice
    is answered 201 both times and stores every entry twice. *)
Theorem double_commit_stores_twice (db : Db) (tasks : list Entry.t) :
  tasks ≠ [] → Forall (λ e, entry_ok e = true) tasks →
  let r1 := confirmDraft db (Some tasks) in
  let r2 := confirmDraft r1.1 (Some tasks) in
  statusCode r1.2 = 201 ∧ statusCode r2.2 = 201
  ∧ size (Tasks r2.1) = size (Tasks db) + 2 * length tasks.
Proof.
  intros Hne Hok. apply validate_entries in Hok as [valid Hv]. cbv zeta.
  rewrite (confirmDraft_valid db tasks valid Hne Hv). cbn [fst snd].
  rewrite (confirmDraft_valid _ tasks valid Hne Hv). cbn [fst snd Tasks].
  split; [done|]. split; [done|].
  pose proof (length_mapM _ _ _ Hv) as Hl. rewrite length_fmap in Hl.
  pose proof (store_all_size valid (store_all valid (Tasks db)).1) as [-> _].
  pose proof (store_all_size valid (Tasks db)) as [-> _]. lia.
Qed.

Lemma double_commit_stores_twice_witness :
  size (Tasks (confirmDraft (confirmDraft (mkDb [W1] ∅) (Some [stale_entry])).1
                 (Some [stale_entry])).1) = size (Tasks (mkDb [W1] ∅)) + 2 * 1.
Proof.
  refine (proj2 (proj2 (double_commit_stores_twice (mkDb [W1] ∅) [stale_entry] _ _))).
  - discriminate.
  - apply Forall_cons. split; [reflexivity|apply Forall_nil_2].
Defined.

(** ** Composing the lifecycle operations *)

(** X12. No order of statuses is enforced and the last write wins: for a
    caller who may update the task, setting an allowed status and then
    another leaves the store as setting the second alone, whatever the
    task's status was (also a completed or failed one). *)
Theorem status_last_write_wins (db : Db) (user : User.t) (id : ObjectId)
    (t : Task.t) (s1 s2 : string) :
  Tasks db !! id = Some t → Task.validate t = true →
  s1 ∈ allowedStatuses → s2 ∈ allowedStatuses →
  User.role user ≠ "agent" ∨ isAssigned t user = true →
  let r := updateTaskStatus (updateTaskStatus db user id (Some s1)).1 user id (Some s2) in
  statusCode r.2 = 200
  ∧ r.1 = (updateTaskStatus db user id (Some s2)).1
  ∧ Task.status <$> Tasks r.1 !! id = Some s2.
Proof.
  intros Ht Hv Hs1 Hs2 Hperm. cbv zeta.
  rewrite (updateTaskStatus_applied db user id s1 t Ht Hs1 Hv Hperm). cbn [fst].
  rewrite (updateTaskStatus_applied _ user id s2 (Task.set_status s1 t)); try done.
  - rewrite (updateTaskStatus_applied db user id s2 t Ht Hs2 Hv Hperm).
    cbn [fst snd Agents Tasks]. rewrite insert_insert_eq, lookup_insert_eq.
    by destruct t.
  - cbn [Tasks]. by rewrite lookup_insert_eq.
  - by apply validate_set_status.
Qed.

Lemma status_last_write_wins_witness :
  Task.status
    <$> Tasks (updateTaskStatus
                 (updateTaskStatus (mkDb [W1; W2] {[7 := drafted_task]})
                    (User.mk 100 "admin") 7 (Some "completed")).1
                 (User.mk 100 "admin") 7 (Some "pending")).1 !! 7
  = Some "pending".
Proof.
  assert (H7 : Tasks (mkDb [W1; W2] {[7 := drafted_task]}) !! 7 = Some drafted_task)
    by reflexivity.
  refine (proj2 (proj2 (status_last_write_wins (mkDb [W1; W2] {[7 := drafted_task]})
                          (User.mk 100 "admin") 7 drafted_task "completed" "pending"
                          H7 _ _ _ _))).
  - reflexivity.
  - unfold allowedStatuses. set_solver.
  - unfold allowedStatuses. set_solver.
  - left. discriminate.
Defined.

(** X13. Reassigning a task and then reassigning it to the reference it
    had: both requests are answered 200, in between the task's [assignedTo]
    is the new reference, and afterwards the agents are the same, no task
    has been added or removed, and every task has the [firstName], [phone],
    [notes], [agentId], [assignedTo], [status] and [isFinalized] it had.
    (The schema's [updatedAt] stamp, which each [save] of a changed path
    rewrites, is not among the fields of [Task.t] and is not covered.) *)
Theorem reassign_and_back (db : Db) (id : ObjectId) (t : Task.t)
    (w : option ObjectId) :
  Tasks db !! id = Some t → Task.validate t = true →
  let r1 := reassignTask db id w in
  let r2 := reassignTask r1.1 id (Task.assignedTo t) in
  statusCode r1.2 = 200 ∧ statusCode r2.2 = 200
  ∧ (∃ t1, Tasks r1.1 !! id = Some t1 ∧ Task.assignedTo t1 = w)
  ∧ Agents r2.1 = Agents db
  ∧ (∀ i, Tasks r2.1 !! i = None ↔ Tasks db !! i = None)
  ∧ (∀ i x, Tasks db !! i = Some x →
       ∃ x', Tasks r2.1 !! i = Some x'
             ∧ Task.firstName x' = Task.firstName x
             ∧ Task.phone x' = Task.phone x
             ∧ Task.notes x' = Task.notes x
             ∧ Task.agentId x' = Task.agentId x
             ∧ Task.assignedTo x' = Task.assignedTo x
             ∧ Task.status x' = Task.status x
             ∧ Task.isFinalized x' = Task.isFinalized x).
Proof.
  intros Ht Hv r1 r2. subst r2 r1.
  rewrite (reassignTask_applied db id w t Ht Hv). cbn [fst snd].
  rewrite (reassignTask_applied _ id _ (Task.set_assignedTo w t));
    [|cbn [Tasks]; by rewrite lookup_insert_eq|done].
  cbn [fst snd Agents Tasks]. rewrite insert_insert_eq.
  split; [done|]. split; [done|]. split.
  { exists (Task.set_assignedTo w t). by rewrite lookup_insert_eq. }
  split; [done|]. split.
  - intros i. destruct (decide (i = id)) as [->|Hi].
    + rewrite lookup_insert_eq, Ht. done.
    + by rewrite lookup_insert_ne.
  - intros i x Hx. destruct (decide (i = id)) as [->|Hi].
    + rewrite lookup_insert_eq. eexists. split; [done|].
      assert (x = t) by congruence. subst x. done.
    + rewrite lookup_insert_ne by done. exists x. done.
Qed.

Lemma reassign_and_back_witness :
  let r1 := reassignTask (mkDb [W1; W2] {[7 := drafted_task]}) 7 (Some 1) in
  let r2 := reassignTask r1.1 7 (Task.assignedTo drafted_task) in
  statusCode r1.2 = 200 ∧ statusCode r2.2 = 200
  ∧ Agents r2.1 = [W1; W2].
Proof.
  assert (H7 : Tasks (mkDb [W1; W2] {[7 := drafted_task]}) !! 7 = Some drafted_task)
    by reflexivity.
  destruct (reassign_and_back (mkDb [W1; W2] {[7 := drafted_task]}) 7 drafted_task
              (Some 1) H7 eq_refl) as (H1 & H2 & _ & Hag & _).
  repeat split; assumption.
Defined.

(** ** The two branches of the upload *)

(** X14. The sheet branch and the CSV branch of the row filter are
    written twice and agree on text: a sheet row whose cells are all
    strings is filtered exactly as the CSV row with the same columns. *)
Theorem row_filters_agree_on_text (data : CRow) :
  xlsx_row (JS.CStr <$> data) = csv_row data.
Proof.
  unfold xlsx_row, csv_row. rewrite !lookup_fmap. cbv zeta.
  assert (Hn : (if JS.truthy (JS.CStr <$> data !! "Notes")
                then JS.trim (JS.String_ (JS.CStr <$> data !! "Notes")) else "")
               = (if JS.truthy_str (JS.trim <$> data !! "Notes")
                  then default "" (JS.trim <$> data !! "Notes") else "")).
  { destruct (data !! "Notes") as [n|]; [|done]. cbn [fmap option_fmap option_map].
    unfold JS.truthy, JS.truthy_str, JS.String_. cbn [default from_option id].
    destruct (String.eqb_spec n "") as [->|Hne]; [done|]. cbn [negb].
    by destruct (String.eqb_spec (JS.trim n) "") as [->|Ht]. }
  rewrite Hn. clear Hn.
  destruct (data !! "FirstName") as [f|]; [|done].
  destruct (data !! "Phone") as [p|]; [done|].
  cbn [fmap option_fmap option_map JS.truthy JS.truthy_str].
  by rewrite andb_false_r.
Qed.

Lemma fileFilter_iff (f : File) :
  fileFilter f = true
  ↔ mimetype f = csv_type ∨ mimetype f = xls_type ∨ mimetype f = xlsx_type.
Proof.
  unfold fileFilter. rewrite bool_decide_eq_true, !elem_of_cons, elem_of_nil. tauto.
Qed.

(** X15. The upload handler always answers: no exception escapes it, the
    lookup [agents[index % agents.length]] being in range whenever it is
    reached.  The answer is 200, 400 or 500, and 500 only for a sheet that
    fails to decode. *)
Theorem draftUpload_always_responds (db : Db) (file : option File) :
  ∃ res,
    draftUpload db file = Responded res
    ∧ (statusCode res = 200 ∨ statusCode res = 400 ∨ statusCode res = 500)
    ∧ (statusCode res = 500 →
       ∃ f err, file = Some f ∧ is_excel f = true
                ∧ sheet_to_json (buffer f) = inl err)
    ∧ (statusCode res = 200 → Agents db ≠ [] ∧ ∃ f, file = Some f ∧ fileFilter f = true).
Proof.
  unfold draftUpload. destruct file as [f|].
  2:{ eexists. split; [done|]. cbn. split; [tauto|]. split; discriminate. }
  destruct (Agents db) as [|a0 rest] eqn:Hag; cbn [length Nat.eqb].
  { eexists. split; [done|]. cbn. split; [tauto|]. split; discriminate. }
  assert (Hd : ∀ results, make_draft (a0 :: rest) results
                          = Some (imap (λ i task, paired task
                                    (default a0 ((a0 :: rest) !! (i mod length (a0 :: rest)))))
                                    results))
    by (intros; by apply make_draft_imap).
  destruct (String.eqb_spec (mimetype f) xlsx_type) as [Hx|Hx];
    [|destruct (String.eqb_spec (mimetype f) xls_type) as [Hs|Hs]]; cbn [orb].
  - destruct (sheet_to_json (buffer f)) as [err|jsonData] eqn:Hsheet.
    + eexists. split; [done|]. cbn. split; [tauto|]. split; [|discriminate].
      intros _. exists f, err. split; [done|]. split; [|done].
      unfold is_excel. by rewrite ?Hx, ?Hs.
    + rewrite Hd. eexists. split; [done|]. cbn. split; [tauto|].
      split; [discriminate|]. intros _. split; [done|]. exists f.
      split; [done|]. apply fileFilter_iff. tauto.
  - destruct (sheet_to_json (buffer f)) as [err|jsonData] eqn:Hsheet.
    + eexists. split; [done|]. cbn. split; [tauto|]. split; [|discriminate].
      intros _. exists f, err. split; [done|]. split; [|done].
      unfold is_excel. by rewrite ?Hx, ?Hs.
    + rewrite Hd. eexists. split; [done|]. cbn. split; [tauto|].
      split; [discriminate|]. intros _. split; [done|]. exists f.
      split; [done|]. apply fileFilter_iff. tauto.
  - destruct (String.eqb_spec (mimetype f) csv_type) as [Hc|Hc].
    + rewrite Hd. eexists. split; [done|]. cbn. split; [tauto|].
      split; [discriminate|]. intros _. split; [done|]. exists f.
      split; [done|]. apply fileFilter_iff. tauto.
    + eexists. split; [done|]. cbn. split; [tauto|]. split; discriminate.
Qed.

(** ** Agents *)

Lemma findOne_email_None (email : string) (agents : list Agent.t) :
  findOne_email email agents = None ↔ ∀ a, a ∈ agents → Agent.email a ≠ email.
Proof.
  unfold findOne_email. rewrite fmap_None, list_find_None, Forall_forall. done.
Qed.

Lemma findOne_email_Some (email : string) (agents : list Agent.t) (a : Agent.t) :
  findOne_email email agents = Some a → a ∈ agents ∧ Agent.email a = email.
Proof.
  unfold findOne_email. intros ([i a'] & Hf & ->)%fmap_Some.
  apply list_find_Some in Hf as (Hi & He & _). split; [|done].
  by eapply list_elem_of_lookup_2.
Qed.

(** X16. Adding an agent never touches the tasks and never moves or
    changes an existing agent: the new agent, if any, is appended.  An email
    already in use is answered 400 and nothing is added, so emails that are
    pairwise distinct stay so, and so do the ids.  On 201 the stored password
    is the hash, and the response carries it. *)
Theorem addAgent_keeps_agents_distinct (hash : string → string) (db : Db)
    (body : AgentBody.t) :
  let r := addAgent hash db body in
  Tasks r.1 = Tasks db
  ∧ (∃ added, Agents r.1 = (Agents db ++ added)%list)
  ∧ (∀ a, a ∈ Agents db → Agent.email a = AgentBody.email body →
       r = (db, Responded (message 400 "Agent already exists")))
  ∧ (NoDup (Agent.email <$> Agents db) → NoDup (Agent.email <$> Agents r.1))
  ∧ (NoDup (Agent._id <$> Agents db) → NoDup (Agent._id <$> Agents r.1))
  ∧ (∀ res, r.2 = Responded res → statusCode res = 201 →
       ∃ a pw, Agents r.1 = (Agents db ++ [a])%list
               ∧ AgentBody.password body = Some pw
               ∧ Agent.password a = hash pw
               ∧ Agent.email a = AgentBody.email body
               ∧ Agent.role a = "agent"
               ∧ field "password" (json res) = Some (JStr (hash pw))).
Proof.
  cbv zeta. unfold addAgent.
  destruct (findOne_email (AgentBody.email body) (Agents db)) as [a0|] eqn:Hfind.
  { cbn [fst snd]. split; [done|]. split; [by exists []; rewrite app_nil_r|].
    split; [done|]. split; [done|]. split; [done|].
    intros res [= <-]. discriminate. }
  pose proof (proj1 (findOne_email_None _ _) Hfind) as Hfree.
  assert (Hsame : ∀ o : Outcome,
    Tasks db = Tasks db ∧ (∃ added, Agents db = (Agents db ++ added)%list)
    ∧ (∀ a, a ∈ Agents db → Agent.email a = AgentBody.email body →
         (db, o) = (db, Responded (message 400 "Agent already exists")))
    ∧ (NoDup (Agent.email <$> Agents db) → NoDup (Agent.email <$> Agents db))
    ∧ (NoDup (Agent._id <$> Agents db) → NoDup (Agent._id <$> Agents db))).
  { intros o. split; [done|]. split; [by exists []; rewrite app_nil_r|].
    split; [|done]. intros a Ha He. by destruct (Hfree a Ha). }
  destruct (AgentBody.password body) as [pw|].
  2:{ cbn [fst snd]. destruct (Hsame (Uncaught illegal_arguments)) as (?&?&?&?&?).
      repeat (split; [done|]). intros res [=]. }
  destruct (Agent_validate _) eqn:Hval.
  2:{ cbn [fst snd]. destruct (Hsame (Uncaught agent_validation_failed)) as (?&?&?&?&?).
      repeat (split; [done|]). intros res [=]. }
  cbn [fst snd Agents Tasks]. split; [done|]. split; [by eexists|]. split.
  { intros a Ha He. by destruct (Hfree a Ha). }
  split; [|split].
  - intros Hnd. rewrite fmap_app. apply NoDup_app. split; [done|]. split.
    + intros e He [->|[]%elem_of_nil]%elem_of_cons.
      apply list_elem_of_fmap in He as (a & Hea & Ha). by destruct (Hfree a Ha).
    + cbn. apply NoDup_singleton.
  - intros Hnd. rewrite fmap_app. apply NoDup_app. split; [done|]. split.
    + intros i Hi [->|[]%elem_of_nil]%elem_of_cons. cbn in Hi.
      apply (is_fresh (list_to_set (Agent._id <$> Agents db) : gset nat)).
      by apply elem_of_list_to_set.
    + cbn. apply NoDup_singleton.
  - intros res [= <-] _. eexists _, pw. split; [done|]. by repeat split.
Qed.

Lemma addAgent_keeps_agents_distinct_witness :
  addAgent (λ pw, "$2a$10$" +:+ pw) (mkDb [W1; W2] ∅)
    (AgentBody.mk (Some "W1b") "w1@example.com" (Some "555-0003") (Some "secret"))
  = (mkDb [W1; W2] ∅, Responded (message 400 "Agent already exists")).
Proof.
  refine (proj1 (proj2 (proj2 (addAgent_keeps_agents_distinct (λ pw, "$2a$10$" +:+ pw)
            (mkDb [W1; W2] ∅)
            (AgentBody.mk (Some "W1b") "w1@example.com" (Some "555-0003") (Some "secret")))))
            W1 _ _); [apply list_elem_of_here|reflexivity].
Defined.

(** X17. Logging in: an unknown email and a wrong password get the same
    answer, 400 "Invalid credentials".  With the right password the answer
    is a token for [{id: agent._id, role: 'agent'}]; sent back by the front
    end's client, it is refused with 403 on every route registered for
    admins, whatever the store, and it opens [GET /my] with the agent's own
    list. *)
Theorem agent_token_opens_agent_routes_only (compare : string → string → bool)
    (sign : User.t → string) (verify : string → option User.t) (db : Db)
    (email password : string) :
  (findOne_email email (Agents db) = None
   ∨ (∃ a, findOne_email email (Agents db) = Some a
           ∧ compare password (Agent.password a) = false) →
   agentLogin compare sign db email (Some password) = message 400 "Invalid credentials")
  ∧ (∀ a, findOne_email email (Agents db) = Some a →
       compare password (Agent.password a) = true →
       let user := User.mk (Agent._id a) "agent" in
       let token := sign user in
       token ≠ "" → occurs space token = false → verify token = Some user →
       agentLogin compare sign db email (Some password)
       = mkResponse 200 (JObj [("token", JStr token)])
       ∧ (∀ db' r, route_role r = Some "admin" →
            taskRoutes verify db' (Authorization (Some token)) r
            = (db', Responded (message 403 "only admins can access this")))
       ∧ (∀ db', taskRoutes verify db' (Authorization (Some token)) GET_my
                 = (db', Responded (getAgentTasks db' user)))).
Proof.
  split.
  - unfold agentLogin. intros [->|(a & -> & ->)]; done.
  - intros a Hfind Hcmp user token Hne Hsp Hver.
    assert (Hprot : protect verify (Authorization (Some token)) = inr user).
    { unfold Authorization, JS.truthy_str.
      apply String.eqb_neq in Hne. rewrite Hne. cbn [negb default from_option id].
      rewrite protect_bearer, (split_without_sep space token Hsp). cbn.
      by rewrite Hver. }
    split; [|split].
    + unfold agentLogin. by rewrite Hfind, Hcmp.
    + intros db' r Hrole. unfold taskRoutes. by rewrite Hprot, Hrole.
    + intros db'. unfold taskRoutes. by rewrite Hprot.
Qed.

Lemma agent_token_opens_agent_routes_only_witness :
  taskRoutes toy_verify (mkDb [W1; W2] {[7 := drafted_task]})
    (Authorization (Some (toy_sign (User.mk 2 "agent")))) PATCH_task_finalize
  = (mkDb [W1; W2] {[7 := drafted_task]},
     Responded (message 403 "only admins can access this")).
Proof.
  refine (proj1 (proj2 (proj2 (agent_token_opens_agent_routes_only String.eqb toy_sign
            toy_verify (mkDb [W1; W2] ∅) "w2@example.com" "hash2") W2 _ _ _ _ _))
            (mkDb [W1; W2] {[7 := drafted_task]}) PATCH_task_finalize _);
    try reflexivity. discriminate.
Defined.

(** ** The front end: paging, counters, notifications, session *)

Lemma currentTasks_page {A} (l : list A) (p per : nat) :
  1 ≤ p → currentTasks l p per = take per (drop ((p - 1) * per) l).
Proof.
  intros Hp. unfold currentTasks. cbv zeta.
  replace (p * per - (p * per - per)) with per by nia.
  by replace (p * per - per) with ((p - 1) * per) by nia.
Qed.

Lemma pages_concat {A} (l : list A) (per k : nat) :
  concat ((λ p, currentTasks l p per) <$> seq 1 k) = take (k * per) l.
Proof.
  induction k as [|k IH]; [done|].
  rewrite seq_S, fmap_app, concat_app, IH. cbn [fmap list_fmap concat].
  rewrite app_nil_r, currentTasks_page by lia.
  replace (1 + k - 1) with k by lia.
  rewrite take_take_drop. f_equal. lia.
Qed.

Lemma totalPages_bounds {A} (l : list A) (per : nat) :
  1 ≤ per →
  length l ≤ totalPages l per * per
  ∧ (1 ≤ totalPages l per → (totalPages l per - 1) * per < length l).
Proof.
  intros Hper. unfold totalPages.
  assert (Hne : per ≠ 0) by lia.
  pose proof (Nat.div_mod (length l + per - 1) per Hne) as Hdm.
  pose proof (Nat.mod_upper_bound (length l + per - 1) per Hne) as Hr.
  set (T := (length l + per - 1) / per) in *. split; [nia|]. intros HT.
  replace ((T - 1) * per) with (T * per - per) by nia. nia.
Qed.

(** X18. The pages of the admin's task list: for a page size of at least
    one, the pages 1 to [totalPages], in order, are the filtered list, each
    of them holds between one task and a page's worth, every later page is
    empty although tasks may match, and the two buttons never leave the
    range. *)
Theorem paging_covers_the_list {A} (filteredTasks : list A) (tasksPerPage : nat) :
  1 ≤ tasksPerPage →
  let pages := totalPages filteredTasks tasksPerPage in
  concat ((λ p, currentTasks filteredTasks p tasksPerPage) <$> seq 1 pages)
  = filteredTasks
  ∧ (∀ p, 1 ≤ p ≤ pages →
       1 ≤ length (currentTasks filteredTasks p tasksPerPage) ≤ tasksPerPage)
  ∧ (∀ p, pages < p → currentTasks filteredTasks p tasksPerPage = [])
  ∧ (∀ p, 1 ≤ p ≤ pages →
       1 ≤ previousPage p ≤ pages ∧ 1 ≤ nextPage pages p ≤ pages).
Proof.
  intros Hper pages. subst pages.
  destruct (totalPages_bounds filteredTasks tasksPerPage Hper) as [Hup Hlow].
  split; [|split; [|split]].
  - rewrite pages_concat. by apply take_ge.
  - intros p [Hp1 Hp2]. rewrite currentTasks_page, length_take, length_drop by done.
    assert ((p - 1) * tasksPerPage < length filteredTasks) by nia. lia.
  - intros p Hp. rewrite currentTasks_page by lia.
    rewrite drop_ge; [by destruct tasksPerPage|]. nia.
  - intros p Hp. unfold previousPage, nextPage. lia.
Qed.

Lemma paging_covers_the_list_witness :
  concat ((λ p, currentTasks (seq 0 25) p 10) <$> seq 1 (totalPages (seq 0 25) 10))
  = seq 0 25.
Proof.
  refine (proj1 (paging_covers_the_list (seq 0 25) 10 _)). lia.
Defined.

(** X19. The counters of the agent's dashboard, on tasks whose status is
    one of the four of the schema: the total is the completed, plus the
    pending (which count the in-progress too), plus the failed, which are
    shown in no counter of their own; and the overdue are never more than
    the tasks not completed. *)
Theorem agent_counters (older : ObjectId * Task.t → bool)
    (tasks : list (ObjectId * Task.t)) :
  Forall (λ kv, Task.validate kv.2 = true) tasks →
  let st := agent_stats older tasks in
  totalTasks st
  = completedTasks st + pendingTasks st + length (with_status "failed" tasks)
  ∧ overdueTasks st + completedTasks st ≤ totalTasks st.
Proof.
  intros Hall. unfold agent_stats, with_status. cbn [totalTasks completedTasks pendingTasks overdueTasks].
  induction Hall as [|kv tasks Hv _ IH]; [done|].
  rewrite !filter_cons. cbn [length].
  unfold Task.validate in Hv. apply andb_true_iff in Hv as [_ Hs].
  apply bool_decide_eq_true in Hs. unfold Task.status_enum in Hs.
  rewrite !elem_of_cons, elem_of_nil in Hs.
  destruct Hs as [Hs|[Hs|[Hs|[Hs|[]]]]]; rewrite Hs;
    repeat (case_decide; try done); cbn [length String.eqb] in *;
    try (destruct (older kv); repeat (case_decide; try done); cbn [length]); lia.
Qed.

Lemma agent_counters_witness :
  totalTasks (agent_stats (λ _, true) [(7, drafted_task); (8, reassigned_task)])
  = completedTasks (agent_stats (λ _, true) [(7, drafted_task); (8, reassigned_task)])
    + pendingTasks (agent_stats (λ _, true) [(7, drafted_task); (8, reassigned_task)])
    + length (with_status "failed" [(7, drafted_task); (8, reassigned_task)]).
Proof.
  refine (proj1 (agent_counters (λ _, true) [(7, drafted_task); (8, reassigned_task)] _)).
  repeat (apply Forall_cons; split; [reflexivity|]). apply Forall_nil_2.
Defined.

(** X20. The notification list never holds more than 50 entries: this is
    so after any sequence of additions, markings and clearings from the
    empty list, each addition putting the new entry first and dropping what
    lies beyond the 49 most recent. *)
Theorem notifications_keep_the_last_50 (ops : list NotificationOp) :
  let st := foldl notify (mkNotifications [] 0) ops in
  length (notifications st) ≤ 50
  ∧ (∀ fresh now n,
       ∃ new, notifications (notify st (Add fresh now n))
              = new :: take 49 (notifications st)
              ∧ Notification.id new = default fresh (NotificationInput.id n)
              ∧ unreadCount (notify st (Add fresh now n)) = unreadCount st + 1).
Proof.
  cbv zeta. split; [|by eexists].
  assert (Hinv : ∀ st, length (notifications st) ≤ 50 →
                       length (notifications (foldl notify st ops)) ≤ 50).
  { induction ops as [|op ops IH]; intros st Hst; [done|].
    cbn [foldl]. apply IH. destruct op; cbn.
    - rewrite length_take. lia.
    - by rewrite length_fmap.
    - by rewrite length_fmap.
    - etrans; [apply length_filter|done].
    - lia. }
  apply Hinv. cbn. lia.
Qed.

(** X21. The session reducer holds a token only while authenticated: from
    the initial state, after any actions, a state that is not authenticated
    has no token; a logout leaves no user, no token and no error whatever
    came before; and without a login success among the actions the state
    never becomes authenticated. *)
Theorem token_only_while_authenticated (actions : list AuthAction) :
  let st := foldl authReducer initialState actions in
  (isAuthenticated st = false → token st = None)
  ∧ (∀ s, let s' := authReducer s LOGOUT in
          user s' = None ∧ token s' = None ∧ isAuthenticated s' = false
          ∧ error s' = None)
  ∧ ((∀ u t, LOGIN_SUCCESS u t ∉ actions) → isAuthenticated st = false).
Proof.
  cbv zeta. split; [|split; [done|]].
  - assert (Hinv : ∀ s, (isAuthenticated s = false → token s = None) →
             isAuthenticated (foldl authReducer s actions) = false →
             token (foldl authReducer s actions) = None).
    { induction actions as [|a actions IH]; intros s Hs; [done|].
      cbn [foldl]. apply IH. by destruct a. }
    by apply Hinv.
  - assert (Hinv : ∀ s, isAuthenticated s = false →
             (∀ u t, LOGIN_SUCCESS u t ∉ actions) →
             isAuthenticated (foldl authReducer s actions) = false).
    { induction actions as [|a actions IH]; intros s Hs Hno; [done|].
      cbn [foldl]. apply IH.
      - destruct a; try done. destruct (Hno user0 token0). apply list_elem_of_here.
      - intros u t Hin. apply (Hno u t). by apply list_elem_of_further. }
    by apply Hinv.
Qed.

Lemma token_only_while_authenticated_witness :
  isAuthenticated (foldl authReducer initialState
                     [SET_LOADING false; UPDATE_USER {["name" := JStr "Ann"]}; CLEAR_ERROR])
  = false.
Proof.
  refine (proj2 (proj2 (token_only_while_authenticated
            [SET_LOADING false; UPDATE_USER {["name" := JStr "Ann"]}; CLEAR_ERROR])) _).
  intros u t Hin.
  repeat (apply elem_of_cons in Hin as [Hin|Hin]; [discriminate Hin|]).
  by apply elem_of_nil in Hin.
Defined.

(** ** The two lists of an agent *)

Lemma listed_in_getAgentTasks (db : Db) (u : User.t) (id : ObjectId) :
  listed_in (getAgentTasks db u) id
  ↔ ∃ t, Tasks db !! id = Some t ∧ isAssigned t u = true.
Proof.
  unfold listed_in, getAgentTasks. cbn [json]. split.
  - intros (l & j & [= <-] & Hj & Hid).
    apply list_elem_of_fmap in Hj as ([i t] & -> & Hin).
    cbn in Hid. injection Hid as ->.
    apply elem_of_find in Hin as [Ht Hq]. by exists t.
  - intros (t & Ht & Hq). eexists _, _. split; [reflexivity|]. split.
    + apply list_elem_of_fmap. exists (id, t). split; [reflexivity|].
      by apply elem_of_find.
    + reflexivity.
Qed.

Lemma listed_in_getTasks (db : Db) (u : User.t) (id : ObjectId) :
  User.role u ≠ "admin" →
  listed_in_tasks (getTasks db u) id
  ↔ ∃ t, Tasks db !! id = Some t ∧ Task.assignedTo t = Some (User.id u)
         ∧ Task.isFinalized t = true.
Proof.
  intros Hr%String.eqb_neq. unfold listed_in_tasks, getTasks. rewrite Hr.
  cbn [json field assoc String.eqb Ascii.eqb Bool.eqb]. split.
  - intros (l & j & [= <-] & Hj & Hid).
    apply list_elem_of_fmap in Hj as ([i t] & -> & Hin).
    cbn in Hid. injection Hid as ->.
    apply elem_of_find in Hin as [Ht [Ha Hf]%andb_true_iff].
    exists t. by rewrite <- same_id_iff.
  - intros (t & Ht & Ha & Hf). eexists _, _. split; [reflexivity|]. split.
    + apply list_elem_of_fmap. exists (id, t). split; [reflexivity|].
      apply elem_of_find. split; [done|].
      apply andb_true_iff. by rewrite same_id_iff.
    + reflexivity.
Qed.

(** X1. The list an agent gets from [GET /my] holds exactly the stored
    tasks whose [assignedTo] or [agentId] is the agent's id, and these are
    exactly the tasks on which the agent's status update is not refused
    with 403. *)
Theorem my_tasks_are_the_updatable_ones (db : Db) (user : User.t) (status : string) :
  User.role user = "agent" →
  status ∈ allowedStatuses →
  (∀ i, listed_in (getAgentTasks db user) i
        ↔ ∃ t, Tasks db !! i = Some t
               ∧ (Task.assignedTo t = Some (User.id user)
                  ∨ Task.agentId t = Some (User.id user)))
  ∧ (∀ i t, Tasks db !! i = Some t →
       (listed_in (getAgentTasks db user) i
        ↔ updateTaskStatus db user i (Some status)
          ≠ (db, message 403 "You are not assigned to this task"))).
Proof.
  intros Hr Hs. split.
  - intros i. rewrite listed_in_getAgentTasks.
    split; intros (t & Ht & Ha); exists t; (split; [done|]); by apply isAssigned_iff.
  - intros i t Ht. rewrite listed_in_getAgentTasks.
    rewrite (updateTaskStatus_403_iff db user i status t Ht Hs Hr). split.
    + intros (t' & Ht' & Ha). congruence.
    + intros Ha. exists t. split; [done|]. by destruct (isAssigned t user).
Qed.

Lemma my_tasks_are_the_updatable_ones_witness :
  listed_in (getAgentTasks (mkDb [W1; W2] {[7 := reassigned_task]}) (User.mk 2 "agent")) 7.
Proof.
  refine (proj2 (proj1 (my_tasks_are_the_updatable_ones
            (mkDb [W1; W2] {[7 := reassigned_task]}) (User.mk 2 "agent") "completed"
            eq_refl _) 7) _).
  - unfold allowedStatuses. set_solver.
  - exists reassigned_task. split; [reflexivity|by right].
Defined.

(** X2. What [GET /task] shows to a caller who is not an admin: exactly the
    stored tasks whose [assignedTo] is the caller and that are finalized.
    So the tasks a commit creates are shown to nobody but admins, and after
    a finalization sweep every task assigned to the caller is shown. *)
Theorem agents_see_tasks_once_finalized (db : Db) (user : User.t) :
  User.role user ≠ "admin" →
  (∀ i, listed_in_tasks (getTasks db user) i
        ↔ ∃ t, Tasks db !! i = Some t
               ∧ Task.assignedTo t = Some (User.id user)
               ∧ Task.isFinalized t = true)
  ∧ (∀ tasks i, Tasks db !! i = None →
       ¬ listed_in_tasks (getTasks (confirmDraft db tasks).1 user) i)
  ∧ (∀ i t, Tasks db !! i = Some t → Task.assignedTo t = Some (User.id user) →
       listed_in_tasks (getTasks (finalizeAssignments db).1 user) i).
Proof.
  intros Hr. split; [intros i; by apply listed_in_getTasks|]. split.
  - intros tasks i Hnew. rewrite listed_in_getTasks by done.
    intros (t & Ht & _ & Hf).
    destruct (confirmDraft_cases db tasks) as [Heq|(entries & valid & -> & Hv & Heq)];
      rewrite Heq in Ht; [congruence|].
    cbn [Tasks] in Ht. apply store_all_new in Ht as [Ht|Ht]; [congruence|].
    apply list_elem_of_lookup in Ht as [j Hj]. apply mapM_Some_1 in Hv.
    destruct (Forall2_lookup_r _ _ _ _ _ Hv Hj) as (d & Hd & Hof).
    rewrite list_lookup_fmap in Hd.
    destruct (entries !! j) as [e|]; [|done]. cbn in Hd. injection Hd as <-.
    apply Task_of_process_Some in Hof as (_ & _ & _ & _ & _ & _ & _ & _ & Hnf).
    congruence.
  - intros i t Ht Ha. rewrite listed_in_getTasks by done.
    unfold finalizeAssignments. cbn [fst Tasks].
    rewrite finalize_lookup, Ht. cbn.
    destruct (Task.isFinalized t) eqn:Hf; eexists; (split; [done|]); by split.
Qed.

Lemma agents_see_tasks_once_finalized_witness :
  listed_in_tasks
    (getTasks (finalizeAssignments (mkDb [W1; W2] {[7 := drafted_task]})).1
       (User.mk 2 "agent")) 7.
Proof.
  assert (Hr : User.role (User.mk 2 "agent") ≠ "admin") by discriminate.
  destruct (agents_see_tasks_once_finalized (mkDb [W1; W2] {[7 := drafted_task]})
              (User.mk 2 "agent") Hr) as (_ & _ & H).
  apply (H 7 drafted_task); reflexivity.
Defined.

(** X22. The agent's two lists go by different references and part ways
    on a reassignment: once a finalized task drafted for agent w1 has been
    reassigned to w2, [GET /my] still lists it for w1 (and lists it for w2),
    while [GET /task] lists it for w2 only. *)
Theorem reads_part_ways_after_reassignment (db : Db) (id : ObjectId) (t : Task.t)
    (w1 w2 : ObjectId) :
  Tasks db !! id = Some t → Task.validate t = true →
  Task.agentId t = Some w1 → Task.isFinalized t = true → w1 ≠ w2 →
  let db' := (reassignTask db id (Some w2)).1 in
  listed_in (getAgentTasks db' (User.mk w1 "agent")) id
  ∧ ¬ listed_in_tasks (getTasks db' (User.mk w1 "agent")) id
  ∧ listed_in (getAgentTasks db' (User.mk w2 "agent")) id
  ∧ listed_in_tasks (getTasks db' (User.mk w2 "agent")) id.
Proof.
  intros Ht Hv Ha Hf Hne db'. subst db'.
  rewrite (reassignTask_applied db id (Some w2) t Ht Hv). cbn [fst].
  rewrite !listed_in_getAgentTasks, !listed_in_getTasks by discriminate.
  cbn [Tasks User.id]. rewrite lookup_insert_eq.
  split; [|split; [|split]].
  - eexists. split; [done|]. apply isAssigned_iff. by right.
  - intros (t' & [= <-] & Ha' & _). cbn in Ha'. congruence.
  - eexists. split; [done|]. apply isAssigned_iff. by left.
  - eexists. by split.
Qed.

Lemma reads_part_ways_after_reassignment_witness :
  listed_in
    (getAgentTasks
       (reassignTask (finalizeAssignments (mkDb [W1; W2] {[7 := drafted_task]})).1 7 (Some 1)).1
       (User.mk 2 "agent")) 7.
Proof.
  refine (proj1 (reads_part_ways_after_reassignment
            (finalizeAssignments (mkDb [W1; W2] {[7 := drafted_task]})).1 7
            (Task.set_isFinalized true drafted_task) 2 1 _ _ _ _ _));
    try reflexivity. lia.
Defined.

(** ** Trimming *)

Section Trim.

Local Abbreviation chars := String.list_ascii_of_string.

Lemma chars_rev_app (s acc : string) :
  chars (String.rev_app s acc) = (rev (chars s) ++ chars acc)%list.
Proof.
  revert acc. induction s as [|a s IH]; intros acc; [done|].
  cbn. rewrite IH. cbn. by rewrite <- app_assoc.
Qed.

Lemma chars_rev (s : string) : chars (String.rev s) = rev (chars s).
Proof. unfold String.rev. by rewrite chars_rev_app, app_nil_r. Qed.

Lemma chars_append (s1 s2 : string) : chars (s1 +:+ s2) = (chars s1 ++ chars s2)%list.
Proof.
  induction s1 as [|a s1 IH]; [done|].
  change (String a s1 +:+ s2) with (String a (s1 +:+ s2)).
  cbn [String.list_ascii_of_string app]. by rewrite IH.
Qed.

Lemma chars_cons (s : string) (c : Ascii.ascii) (l : list Ascii.ascii) :
  chars s = c :: l → ∃ s', s = String c s'.
Proof. destruct s as [|a s]; [done|]. cbn. intros [= -> _]. by eexists. Qed.

Lemma strip_head_suffix (w1 : Ascii.ascii → bool)
    (w2 : Ascii.ascii → Ascii.ascii → bool)
    (w3 : Ascii.ascii → Ascii.ascii → Ascii.ascii → bool) (n : nat) (s : string) :
  String.length s ≤ n →
  (∀ c s', JS.strip w1 w2 w3 s = String c s' → w1 c = false)
  ∧ ∃ w, chars s = (w ++ chars (JS.strip w1 w2 w3 s))%list.
Proof.
  revert s. induction n as [|n IH]; intros s Hlen.
  { destruct s; [|cbn in Hlen; lia]. split; [done|by exists []]. }
  destruct s as [|c1 s1]; [split; [done|by exists []]|].
  cbn in Hlen. cbn [JS.strip].
  destruct (w1 c1) eqn:H1.
  { destruct (IH s1) as [Hh [w Hw]]; [lia|]. split; [done|].
    exists (c1 :: w). cbn. by rewrite Hw. }
  destruct s1 as [|c2 s2].
  { split; [by intros c s' [= <- _]|by exists []]. }
  cbn in Hlen. destruct (w2 c1 c2).
  { destruct (IH s2) as [Hh [w Hw]]; [lia|]. split; [done|].
    exists (c1 :: c2 :: w). cbn. by rewrite Hw. }
  destruct s2 as [|c3 s3].
  { split; [by intros c s' [= <- _]|by exists []]. }
  cbn in Hlen. destruct (w3 c1 c2 c3).
  { destruct (IH s3) as [Hh [w Hw]]; [lia|]. split; [done|].
    exists (c1 :: c2 :: c3 :: w). cbn. by rewrite Hw. }
  split; [by intros c s' [= <- _]|by exists []].
Qed.

Lemma strip_head (w1 : Ascii.ascii → bool) (w2 : Ascii.ascii → Ascii.ascii → bool)
    (w3 : Ascii.ascii → Ascii.ascii → Ascii.ascii → bool) (s : string)
    (c : Ascii.ascii) (s' : string) :
  JS.strip w1 w2 w3 s = String c s' → w1 c = false.
Proof. apply (strip_head_suffix w1 w2 w3 (String.length s) s). lia. Qed.

Lemma strip_suffix (w1 : Ascii.ascii → bool) (w2 : Ascii.ascii → Ascii.ascii → bool)
    (w3 : Ascii.ascii → Ascii.ascii → Ascii.ascii → bool) (s : string) :
  ∃ w, chars s = (w ++ chars (JS.strip w1 w2 w3 s))%list.
Proof. apply (strip_head_suffix w1 w2 w3 (String.length s) s). lia. Qed.

Lemma trim_trimmed (x : string) : trimmed (JS.trim x).
Proof.
  unfold JS.trim, JS.trimEnd.
  set (y := JS.trimStart x).
  set (z := JS.strip _ _ _ (String.rev y)).
  assert (Hz : chars (String.rev z) = rev (chars z)) by apply chars_rev.
  split.
  - intros c s' Heq. rewrite Heq in Hz. cbn in Hz.
    destruct (strip_suffix JS.is_whitespace (λ c2 c1, JS.is_whitespace2 c1 c2)
                (λ c3 c2 c1, JS.is_whitespace3 c1 c2 c3) (String.rev y)) as [w Hw].
    fold z in Hw. rewrite chars_rev in Hw.
    assert (Hy : chars y = c :: (chars s' ++ rev w)%list).
    { rewrite <- (rev_involutive (chars y)), Hw, rev_app_distr, <- Hz. done. }
    apply chars_cons in Hy as [y' Hy]. subst y. unfold JS.trimStart in Hy.
    by eapply strip_head.
  - intros s' c Heq. rewrite Heq, chars_append in Hz. cbn in Hz.
    assert (Hc : chars z = c :: rev (chars s')).
    { rewrite <- (rev_involutive (chars z)), <- Hz, rev_app_distr. done. }
    apply chars_cons in Hc as [z' Hc]. subst z.
    by eapply (strip_head JS.is_whitespace).
Qed.

Lemma trimmed_empty : trimmed "".
Proof.
  split; [done|]. intros s' c Heq.
  apply (f_equal chars) in Heq. rewrite chars_append in Heq.
  by destruct (chars s').
Qed.

End Trim.

(** [trim] removes a non-breaking space as it removes a space, so a name
    of non-breaking spaces passes the row filter and is drafted empty. *)
Example trim_nbsp : JS.trim (nbsp +:+ " Ann" +:+ nbsp) = "Ann".
Proof. reflexivity. Qed.

Example nbsp_name_drafted_empty :
  csv_row (row [("FirstName", nbsp); ("Phone", "555-1111")])
  = Some (Candidate.mk "" "555-1111" "").
Proof. reflexivity. Qed.

(** X23. Every field of a record that passes the row filter, in either
    format, neither begins nor ends with white space. *)
Theorem accepted_fields_are_trimmed :
  (∀ data c, csv_row data = Some c →
     trimmed (Candidate.firstName c) ∧ trimmed (Candidate.phone c)
     ∧ trimmed (Candidate.notes c))
  ∧ (∀ r c, xlsx_row r = Some c →
       trimmed (Candidate.firstName c) ∧ trimmed (Candidate.phone c)
       ∧ trimmed (Candidate.notes c)).
Proof.
  split.
  - intros data c Hc. apply csv_row_accepts in Hc as (f & p & _ & _ & _ & _ & ->).
    cbn. split; [apply trim_trimmed|]. split; [apply trim_trimmed|].
    destruct (data !! "Notes"); [apply trim_trimmed|apply trimmed_empty].
  - intros r c. unfold xlsx_row. destruct (_ && _); [|done]. intros [= <-].
    cbn. split; [apply trim_trimmed|]. split; [apply trim_trimmed|].
    destruct (JS.truthy _); [apply trim_trimmed|apply trimmed_empty].
Qed.

Lemma accepted_fields_are_trimmed_witness :
  trimmed (Candidate.firstName (Candidate.mk "Dee" "555-4444" "")).
Proof.
  refine (proj1 (proj1 accepted_fields_are_trimmed
            (row [("FirstName", " Dee "); ("Phone", "555-4444"); ("Region", "N")])
            (Candidate.mk "Dee" "555-4444" "") _)).
  reflexivity.
Defined.

Lemma draftUpload_always_responds_witness :
  ∃ res, draftUpload (mkDb [W1; W2] ∅) (Some five_rows) = Responded res
         ∧ (statusCode res = 200 ∨ statusCode res = 400 ∨ statusCode res = 500).
Proof.
  destruct (draftUpload_always_responds (mkDb [W1; W2] ∅) (Some five_rows))
    as (res & Hres & Hcode & _).
  exists res. by split.
Defined.
